(** * Predeclared builtins of the CUE evaluator: [internal/core/compile/builtin.go]

    A shallow embedding of [lenBuiltin], [closeBuiltin], [andBuiltin],
    [orBuiltin], [divBuiltin], [modBuiltin], [quoBuiltin], [remBuiltin] and
    of their shared helper [intDivOp], followed by the properties the
    specification states about them.

    The file [builtin.go] relies on three collaborators that live elsewhere:
    Go's [math/big], the decimal library [apd], and the evaluator package
    [adt].  Each is given here as a small module holding exactly the
    declarations [builtin.go] uses. *)

From Stdlib Require Import ZArith Lia Bool Strings.Byte.
From stdpp Require Import base option list strings.

(** ** [math/big]: arbitrary-precision signed integers *)

Module big.

Local Open Scope Z_scope.

(** [QuoRem] is Go's T-division (truncation toward zero); a zero divisor is
    a run-time panic, rendered as [None]. *)
Definition QuoRem (x y : Z) : option (Z * Z) :=
  if y =? 0 then None else Some (Z.quot x y, Z.rem x y).

Definition Quo (x y : Z) : option Z := fst <$> QuoRem x y.

Definition Rem (x y : Z) : option Z := snd <$> QuoRem x y.

(** [Div] calls [QuoRem] and moves the quotient by one when the remainder
    came out negative. *)
Definition Div (x y : Z) : option Z :=
  '(q, r) ← QuoRem x y;
  Some (if r <? 0 then (if y <? 0 then q + 1 else q - 1) else q).

(** [Mod] calls [QuoRem] and shifts a negative remainder by [|y|]. *)
Definition Mod (x y : Z) : option Z :=
  '(_, r) ← QuoRem x y;
  Some (if r <? 0 then (if y <? 0 then r - y else r + y) else r).

End big.

(** ** [apd]: decimals as sign flag, magnitude and scale *)

Module apd.

Local Open Scope Z_scope.

(** Modelled from the spec: [apd.Decimal] is declared outside this file.
    The spec describes it as "sign flag + nonnegative magnitude + scale";
    the field names are those [intDivOp] reads and writes.  [Coeff] is a
    [big.Int], so that [intDivOp] can store a signed value in it. *)
Record Decimal : Type := mkDecimal
  { Negative : bool;
    Exponent : Z;
    Coeff : Z }.

(** The Go zero value [var d apd.Decimal]. *)
Definition zero : Decimal :=
  {| Negative := false; Exponent := 0; Coeff := 0 |}.

(** Modelled from the spec: [Decimal.IsZero] is declared outside this
    file; a decimal is zero when its magnitude is, whatever its sign flag
    and scale. *)
Definition IsZero (d : Decimal) : bool := Coeff d =? 0.

(** Modelled from the spec: [Context.RoundToIntegralValue] is declared
    outside this file.  The spec says it rounds a decimal numeral "to its
    nearest integral value"; the result is written with scale zero, the
    sign flag is kept, and a tie is rounded away from zero.  A numeral
    that is already integral is returned with the same value. *)
Definition RoundToIntegralValue (x : Decimal) : Decimal :=
  if 0 <=? Exponent x then
    {| Negative := Negative x; Exponent := 0;
       Coeff := Coeff x * 10 ^ Exponent x |}
  else
    let p := 10 ^ (- Exponent x) in
    let q := Coeff x / p in
    let r := Coeff x mod p in
    {| Negative := Negative x; Exponent := 0;
       Coeff := if p <=? 2 * r then q + 1 else q |}.

(** The decimal that holds the integer [n]: magnitude [|n|], scale zero. *)
Definition of_Z (n : Z) : Decimal :=
  {| Negative := n <? 0; Exponent := 0; Coeff := Z.abs n |}.

End apd.

(** ** [adt]: the value model and the evaluation context *)

Module adt.

Local Open Scope Z_scope.

(** *** Kinds *)

(** Modelled from the spec: [adt.Kind] is declared outside this file; the
    spec describes it as a bitset with union [|], intersection and an
    empty set [BottomKind].  One bit per basic kind. *)
Definition Kind : Type := Z.

Definition BottomKind : Kind := 0.
Definition NullKind : Kind := 1.
Definition BoolKind : Kind := 2.
Definition IntKind : Kind := 4.
Definition FloatKind : Kind := 8.
Definition StringKind : Kind := 16.
Definition BytesKind : Kind := 32.
Definition FuncKind : Kind := 64.
Definition ListKind : Kind := 128.
Definition StructKind : Kind := 256.
Definition NumKind : Kind := Z.lor IntKind FloatKind.
Definition TopKind : Kind := 511.

(** *** Failures *)

(** Modelled from the spec: the two severities of [Bottom].  The spec
    writes [Error] for the code that [adt] names [EvalError]. *)
Inductive ErrorCode : Type :=
| EvalError
| IncompleteError.

Definition Position : Type := nat.

(** An error value keeps its source position and its format string.  The
    arguments of the format only feed the rendering of the message and
    are left out. *)
Record Error : Type := mkError
  { ErrPos : Position;
    Format : string }.

Record Bottom : Type := mkBottom
  { Code : ErrorCode;
    Err : Error }.

(** *** Labels *)

(** Modelled from the spec: [adt.Feature] is declared outside this file.
    A label is regular, hidden or a definition; a regular label is either
    a field name or a list index. *)
Inductive FeatureType : Type :=
| StringLabel
| IntLabel
| DefinitionLabel
| HiddenLabel
| HiddenDefinitionLabel.

Record Feature : Type := mkFeature
  { Index : nat;
    Typ : FeatureType }.

Definition IsRegular (f : Feature) : bool :=
  match Typ f with
  | StringLabel | IntLabel => true
  | _ => false
  end.

Definition IsInt (f : Feature) : bool :=
  match Typ f with
  | IntLabel => true
  | _ => false
  end.

(** *** Values *)

(** Graph nodes are referred to by pointer. *)
Definition loc : Type := nat.

Record Num : Type := mkNum
  { K : Kind;
    X : apd.Decimal }.

(** Modelled from the spec: the variants of [adt.Value] that are not graph
    nodes.  [ABasicType] is a bare type such as [string]: a value of a
    known kind that is not concrete. *)
Inductive Atom : Type :=
| ABottom (b : Bottom)
| ANum (n : Num)
| AString (Str : string)
| ABytes (B : list Byte.byte)
| ATop
| ABasicType (k : Kind).

#[warnings="-register-all"] Inductive Value : Type :=
| VAtom (a : Atom)
| VVertex (p : loc)
| VConjunction (Values : list Value).

Coercion VAtom : Atom >-> Value.

(** Expressions: every value is one, and so is a disjunction of
    expressions that are each marked default or not. *)
Inductive Expr : Type :=
| EValue (v : Value)
| DisjunctionExpr (Values : list Disjunct) (HasDefaults : bool)
with Disjunct : Type :=
| mkDisjunct (Val : Expr) (Default : bool).

Coercion EValue : Value >-> Expr.

Definition Environment : Type := unit.

Record Conjunct : Type := mkConjunct
  { Env : option Environment;
    x : Expr }.

Definition MakeRootConjunct (env : option Environment) (e : Expr) : Conjunct :=
  {| Env := env; x := e |}.

(** What a node has been resolved to: nothing yet, a list, a struct (with
    its closedness marker), or a value that is not a node. *)
Inductive BaseValueT : Type :=
| BVnil
| ListMarker (IsOpen : bool)
| StructMarker (NeedClose : bool)
| BVAtom (a : Atom).

Inductive VertexStatus : Type :=
| Unprocessed
| Evaluating
| Partial
| Finalized.

(** Modelled from the spec: [adt.Vertex] is declared outside this file.
    [Arcs] holds pointers to the child nodes; the label of an arc is a
    field of the child. *)
Record Vertex : Type := mkVertex
  { Parent : option loc;
    Label : Feature;
    status : VertexStatus;
    BaseValue : BaseValueT;
    Arcs : list loc;
    Conjuncts : list Conjunct }.

(** The Go zero value [adt.Vertex{}]. *)
Definition emptyVertex : Vertex :=
  {| Parent := None;
     Label := {| Index := 0; Typ := StringLabel |};
     status := Unprocessed;
     BaseValue := BVnil;
     Arcs := [];
     Conjuncts := [] |}.

Definition withBaseValue (v : Vertex) (b : BaseValueT) : Vertex :=
  {| Parent := Parent v;
     Label := Label v;
     status := status v;
     BaseValue := b;
     Arcs := Arcs v;
     Conjuncts := Conjuncts v |}.

Definition addConjunct (v : Vertex) (c : Conjunct) : Vertex :=
  {| Parent := Parent v;
     Label := Label v;
     status := status v;
     BaseValue := BaseValue v;
     Arcs := Arcs v;
     Conjuncts := Conjuncts v ++ [c] |}.

Definition IsList (v : Vertex) : bool :=
  match BaseValue v with
  | ListMarker _ => true
  | _ => false
  end.

(** *** The evaluation context and the node store *)

(** Modelled from the spec: [adt.OpContext] is declared outside this file.
    The program state a builtin can touch is the context's accumulated
    errors, its current position, and the nodes allocated so far. *)
Record State : Type := mkState
  { errs : list Bottom;
    pos : Position;
    vertices : list Vertex }.

(** A call either returns a result and a new state, or panics. *)
Inductive Outcome (A : Type) : Type :=
| Ret (a : A) (s : State)
| Panic.

Arguments Ret {A} a s.
Arguments Panic {A}.

Definition M (A : Type) : Type := State -> Outcome A.

Definition ret {A} (a : A) : M A := fun s => Ret a s.

Definition bind {A B} (m : M A) (k : A -> M B) : M B :=
  fun s =>
    match m s with
    | Ret a s' => k a s'
    | Panic => Panic
    end.

Definition panic {A} : M A := fun _ => Panic.

Notation "x <- m ;; k" := (bind m (fun x => k))
  (at level 90, m at next level, right associativity).

(** Dereferencing a pointer; a pointer to nothing is a run-time panic. *)
Definition deref (p : loc) : M Vertex :=
  fun s =>
    match vertices s !! p with
    | Some v => Ret v s
    | None => Panic
    end.

(** Allocation of a new node: a pointer no earlier node has. *)
Definition alloc (v : Vertex) : M loc :=
  fun s =>
    Ret (length (vertices s))
        {| errs := errs s; pos := pos s; vertices := vertices s ++ [v] |}.

(** Assignment through a pointer. *)
Definition store (p : loc) (v : Vertex) : M unit :=
  fun s =>
    match vertices s !! p with
    | Some _ =>
        Ret tt {| errs := errs s; pos := pos s;
                  vertices := <[p := v]> (vertices s) |}
    | None => Panic
    end.

(** Indexing the argument slice; out of range is a run-time panic. *)
Definition arg (args : list Value) (i : nat) : M Value :=
  fun s =>
    match args !! i with
    | Some v => Ret v s
    | None => Panic
    end.

(** Modelled from the spec: [OpContext.Pos] is declared outside this file;
    it reads the source position the context is at. *)
Definition Pos : M Position := fun s => Ret (pos s) s.

(** Modelled from the spec: [OpContext.HasErr] is declared outside this
    file; it is the "accumulated-error query": has any failure been
    recorded in the context. *)
Definition HasErr : M bool :=
  fun s => Ret (match errs s with [] => false | _ => true end) s.

(** Modelled from the spec: recording a failure in the context adds it to
    the accumulated errors. *)
Definition AddBottom (b : Bottom) : M unit :=
  fun s => Ret tt {| errs := errs s ++ [b]; pos := pos s;
                     vertices := vertices s |}.

(** Modelled from the spec: [errors.Newf] is declared outside this file;
    it makes an error value from a position and a message. *)
Definition Newf (p : Position) (format : string) : Error :=
  {| ErrPos := p; Format := format |}.

(** Modelled from the spec: [OpContext.NewErrf] is declared outside this
    file; it is the constructor of a hard error "carrying a message and
    source position".  It builds the value and records nothing. *)
Definition NewErrf (format : string) : M Bottom :=
  p <- Pos ;;
  ret {| Code := EvalError; Err := Newf p format |}.

(** Modelled from the spec: [OpContext.NewInt64] and [OpContext.NewNum]
    are declared outside this file; they are the "constructors for
    Int/numeric results".  The argument of [NewInt64] is a Go [int64] made
    from a [len] or from a count of arcs, which always fits. *)
Definition NewInt64 (n : Z) : M Value :=
  ret (VAtom (ANum {| K := IntKind; X := apd.of_Z n |})).

Definition NewNum (d : apd.Decimal) (k : Kind) : M Value :=
  ret (VAtom (ANum {| K := k; X := d |})).

(** *** Kinds of values *)

(** Modelled from the spec: the method [Kind] of the values is declared
    outside this file.  A failure has the empty kind, [Top] has every
    kind, a node has the kind of what it is resolved to (every kind while
    it is unevaluated), and a conjunction has the kinds all its terms
    share. *)
Definition Atom_Kind (a : Atom) : Kind :=
  match a with
  | ABottom _ => BottomKind
  | ANum n => K n
  | AString _ => StringKind
  | ABytes _ => BytesKind
  | ATop => TopKind
  | ABasicType k => k
  end.

Definition BaseValue_Kind (b : BaseValueT) : Kind :=
  match b with
  | BVnil => TopKind
  | ListMarker _ => ListKind
  | StructMarker _ => StructKind
  | BVAtom a => Atom_Kind a
  end.

Fixpoint Value_Kind (vs : list Vertex) (v : Value) : Kind :=
  match v with
  | VAtom a => Atom_Kind a
  | VVertex p =>
      match vs !! p with
      | Some n => BaseValue_Kind (BaseValue n)
      | None => BottomKind
      end
  | VConjunction l =>
      (fix go (k : Kind) (l : list Value) : Kind :=
         match l with
         | [] => k
         | v :: l' => go (Z.land k (Value_Kind vs v)) l'
         end) TopKind l
  end.

Definition KindOf (v : Value) : M Kind :=
  fun s => Ret (Value_Kind (vertices s) v) s.

(** *** Conversions offered by the context *)

Definition zeroNum : Num := {| K := NumKind; X := apd.zero |}.

(** Modelled from the spec: the failure of a conversion is declared
    outside this file.  It is recorded in the context as a hard error when
    the value has none of the kinds asked for, and as an incomplete error
    when it has one of them but is not concrete. *)
Definition typeErrorAs (v : Value) (k : Kind) (as_ : string) : M unit :=
  vk <- KindOf v ;;
  p <- Pos ;;
  if Z.land vk k =? 0 then
    AddBottom {| Code := EvalError;
                 Err := Newf p "cannot use %s (type %s) as %s in %v" |}
  else
    AddBottom {| Code := IncompleteError;
                 Err := Newf p "incomplete %v in %v: %v" |}.

(** Modelled from the spec: [OpContext.Num] is declared outside this file.
    It is "numeric conversion of a Value to a decimal numeral, which may
    itself fail with an error or incomplete marker" (wrong kind, not yet
    concrete); a failure is recorded in the context, where [HasErr] finds
    it, and the caller gets a zero number to go on with.  A node converts
    as the value it is resolved to. *)
Definition Num_ (v : Value) (as_ : string) : M Num :=
  match v with
  | VAtom (ANum n) => ret n
  | VVertex p =>
      n <- deref p ;;
      match BaseValue n with
      | BVAtom (ANum n) => ret n
      | _ => _ <- typeErrorAs v NumKind as_ ;; ret zeroNum
      end
  | _ => _ <- typeErrorAs v NumKind as_ ;; ret zeroNum
  end.

(** Modelled from the spec: [Vertex.Elems] and [OpContext.Elems] are
    declared outside this file: "extraction of a list's element values",
    in order.  The elements of a list node are its arcs with an integer
    label. *)
Fixpoint filterArcs (P : Feature -> bool) (arcs : list loc) : M (list loc) :=
  match arcs with
  | [] => ret []
  | a :: rest =>
      n <- deref a ;;
      r <- filterArcs P rest ;;
      ret (if P (Label n) then a :: r else r)
  end.

Definition Vertex_Elems (v : Vertex) : M (list loc) :=
  filterArcs IsInt (Arcs v).

Definition Elems (v : Value) : M (list loc) :=
  match v with
  | VVertex p =>
      n <- deref p ;;
      if IsList n then Vertex_Elems n
      else _ <- typeErrorAs v ListKind "" ;; ret []
  | _ => _ <- typeErrorAs v ListKind "" ;; ret []
  end.

(** Modelled from the spec: [Vertex.AddConjunct] is declared outside this
    file; it attaches a constraint to a node that has not been resolved
    yet.  On a resolved node it changes nothing and reports a failure,
    which [orBuiltin] does not look at. *)
Definition AddConjunct (p : loc) (c : Conjunct) : M unit :=
  n <- deref p ;;
  match BaseValue n with
  | BVnil => store p (addConjunct n c)
  | _ => ret tt
  end.

End adt.

(** ** [compile]: the predeclared builtins *)

Module compile.

Import adt.

Local Open Scope Z_scope.

Definition supportedByLen : Kind :=
  Z.lor (Z.lor (Z.lor StructKind BytesKind) StringKind) ListKind.

(** The result of a builtin's [Func]: an [adt.Expr], or Go's [nil]. *)
Definition Result : Type := option Expr.

Definition value (v : Value) : M Result := ret (Some (EValue v)).

Definition bottom (b : Bottom) : M Result := value (VAtom (ABottom b)).

(** *** [len] *)

(** The loop [for _, a := range v.Arcs { if a.Label.IsRegular() { n++ } }]. *)
Fixpoint countRegular (arcs : list loc) (n : Z) : M Z :=
  match arcs with
  | [] => ret n
  | a :: rest =>
      v <- deref a ;;
      countRegular rest (if IsRegular (Label v) then n + 1 else n)
  end.

(** The first block of [lenBuiltin], entered when the argument is a node:
    [inl] is a value the builtin returns at once, [inr] is the value the
    second switch goes on with. *)
Definition lenVertex (v : Value) : M (Result + Value) :=
  match v with
  | VVertex p =>
      x <- deref p ;;
      match BaseValue x with
      | BVnil =>
          b <- NewErrf "unevaluated vertex" ;;
          r <- bottom b ;;
          ret (inl r)
      | ListMarker _ =>
          es <- Vertex_Elems x ;;
          n <- NewInt64 (Z.of_nat (length es)) ;;
          r <- value n ;;
          ret (inl r)
      | StructMarker _ =>
          n <- countRegular (Arcs x) 0 ;;
          n <- NewInt64 n ;;
          r <- value n ;;
          ret (inl r)
      | BVAtom a => ret (inr (VAtom a))
      end
  | _ => ret (inr v)
  end.

(** The second switch of [lenBuiltin].  Go's [len] of a string counts
    bytes, as [String.length] does. *)
Definition lenValue (v : Value) : M Result :=
  match v with
  | VAtom (ABytes B) =>
      n <- NewInt64 (Z.of_nat (length B)) ;;
      value n
  | VAtom (AString Str) =>
      n <- NewInt64 (Z.of_nat (String.length Str)) ;;
      value n
  | _ =>
      k <- KindOf v ;;
      if Z.land k supportedByLen =? BottomKind then
        b <- NewErrf "invalid argument type %v" ;;
        bottom b
      else
        b <- NewErrf "incomplete argument %s (type %v)" ;;
        bottom {| Code := IncompleteError; Err := Err b |}
  end.

Definition lenBuiltin (args : list Value) : M Result :=
  v <- arg args 0 ;;
  r <- lenVertex v ;;
  match r with
  | inl e => ret e
  | inr v => lenValue v
  end.

(** *** [and] *)

Definition andBuiltin (args : list Value) : M Result :=
  a0 <- arg args 0 ;;
  list <- Elems a0 ;;
  if Nat.eqb (length list) 0 then value (VAtom ATop)
  else
    let a := fold_left (fun a c => a ++ [VVertex c]) list [] in
    value (VConjunction a).

(** *** [close] and [or]: the builtins that call into the evaluator *)

Section Evaluator.

(** The evaluator itself is not part of this file.  [closeBuiltin] asks it
    whether a node is closed; [orBuiltin] hands it a node to unify up to a
    given status. *)
Variable IsClosed : State -> Vertex -> bool.
Variable Unify : State -> loc -> VertexStatus -> State.

Definition closeBuiltin (args : list Value) : M Result :=
  a0 <- arg args 0 ;;
  match a0 with
  | VVertex s =>
      sv <- deref s ;;
      closed <- (fun c => Ret (IsClosed c sv) c) ;;
      if (closed : bool) then value (VVertex s)
      else
        let v := withBaseValue sv (StructMarker true) in
        p <- alloc v ;;
        value (VVertex p)
  | _ =>
      b <- NewErrf "struct argument must be concrete" ;;
      bottom b
  end.

Definition orBuiltin (args : list Value) : M Result :=
  a0 <- arg args 0 ;;
  list <- Elems a0 ;;
  let d := fold_left
             (fun d c => d ++ [mkDisjunct (EValue (VVertex c)) false]) list [] in
  if Nat.eqb (length d) 0 then
    p <- Pos ;;
    bottom {| Code := IncompleteError;
              Err := Newf p "empty list in call to or" |}
  else
    v <- alloc emptyVertex ;;
    _ <- AddConjunct v (MakeRootConjunct None (DisjunctionExpr d false)) ;;
    _ <- (fun c => Ret tt (Unify c v Finalized)) ;;
    value (VVertex v).

End Evaluator.

(** *** [div], [mod], [quo], [rem] *)

(** [type intFunc func(z, x, y *big.Int) *big.Int]: the result is what the
    call stores in [z]; [None] is the run-time panic of a zero divisor. *)
Definition intFunc : Type := Z -> Z -> option Z.

Definition setCoeff (d : apd.Decimal) (c : Z) : apd.Decimal :=
  {| apd.Negative := apd.Negative d;
     apd.Exponent := apd.Exponent d;
     apd.Coeff := c |}.

Definition setNegative (d : apd.Decimal) (n : bool) : apd.Decimal :=
  {| apd.Negative := n;
     apd.Exponent := apd.Exponent d;
     apd.Coeff := apd.Coeff d |}.

(** The rounding of one operand followed by
    [if x.Negative { x.Coeff.Neg(&x.Coeff) }]. *)
Definition signedOperand (n : Num) : apd.Decimal :=
  let x := apd.RoundToIntegralValue (X n) in
  if apd.Negative x then setCoeff x (- apd.Coeff x) else x.

(** The result in sign-and-magnitude form: [var d apd.Decimal] holding
    [z] in its coefficient, followed by
    [if d.Coeff.Sign() < 0 { d.Coeff.Neg(&d.Coeff); d.Negative = true }]. *)
Definition signMagnitude (z : Z) : apd.Decimal :=
  let d := setCoeff apd.zero z in
  if apd.Coeff d <? 0
  then setNegative (setCoeff d (- apd.Coeff d)) true
  else d.

Definition intDivOp (fn : intFunc) (name : string) (args : list Value)
  : M (option Value) :=
  a0 <- arg args 0 ;;
  a <- Num_ a0 name ;;
  a1 <- arg args 1 ;;
  b <- Num_ a1 name ;;
  e <- HasErr ;;
  if (e : bool) then ret None
  else if apd.IsZero (X b) then
    bot <- NewErrf "division by zero" ;;
    ret (Some (VAtom (ABottom bot)))
  else
    let x := signedOperand a in
    let y := signedOperand b in
    match fn (apd.Coeff x) (apd.Coeff y) with
    | None => panic
    | Some z =>
        r <- NewNum (signMagnitude z) IntKind ;;
        ret (Some r)
    end.

Definition divBuiltin (args : list Value) : M Result :=
  r <- intDivOp big.Div "argument to div builtin" args ;;
  ret (EValue <$> r).

Definition modBuiltin (args : list Value) : M Result :=
  r <- intDivOp big.Mod "argument to mod builtin" args ;;
  ret (EValue <$> r).

Definition quoBuiltin (args : list Value) : M Result :=
  r <- intDivOp big.Quo "argument to quo builtin" args ;;
  ret (EValue <$> r).

Definition remBuiltin (args : list Value) : M Result :=
  r <- intDivOp big.Rem "argument to rem builtin" args ;;
  ret (EValue <$> r).

End compile.

(** * Vocabulary of the statements *)

Import adt compile.

Local Open Scope Z_scope.

(** An integer argument: an [Int]-kind number whose decimal has scale zero,
    as [NewInt64] and [intDivOp] itself produce them. *)
Definition int (n : Z) : Value :=
  VAtom (ANum {| K := IntKind; X := apd.of_Z n |}).

(** A state in which no error is pending. *)
Definition clean (s : State) : Prop := errs s = [].

Definition state0 : State := {| errs := []; pos := 0%nat; vertices := [] |}.

(** The four builtins of the division family, and the name each passes to
    the numeric conversion. *)
Inductive divOp : Type := opDiv | opMod | opQuo | opRem.

Definition builtinOf (o : divOp) : list Value -> M Result :=
  match o with
  | opDiv => divBuiltin
  | opMod => modBuiltin
  | opQuo => quoBuiltin
  | opRem => remBuiltin
  end.

Definition fnOf (o : divOp) : intFunc :=
  match o with
  | opDiv => big.Div
  | opMod => big.Mod
  | opQuo => big.Quo
  | opRem => big.Rem
  end.

Definition nameOf (o : divOp) : string :=
  match o with
  | opDiv => "argument to div builtin"
  | opMod => "argument to mod builtin"
  | opQuo => "argument to quo builtin"
  | opRem => "argument to rem builtin"
  end.

(** [s'] is [s] with the failure [e] added to the accumulated errors. *)
Definition registers (s s' : State) (e : Bottom) : Prop :=
  s' = {| errs := errs s ++ [e]; pos := pos s; vertices := vertices s |}.

(** A hard error made at the current position of [s]. *)
Definition hardError (s : State) (msg : string) : Value :=
  VAtom (ABottom {| Code := EvalError; Err := Newf (pos s) msg |}).

(** A number that is not an integer: three tenths, of kind [Float]. *)
Definition threeTenths : Num :=
  {| K := FloatKind;
     X := {| apd.Negative := false; apd.Exponent := -1; apd.Coeff := 3 |} |}.

Definition stateTop : State :=
  {| errs := [ {| Code := IncompleteError;
                  Err := Newf 0%nat "incomplete %v in %v: %v" |} ];
     pos := 0%nat; vertices := [] |}.

Definition stateTopString : State :=
  {| errs := [ {| Code := IncompleteError;
                  Err := Newf 0%nat "incomplete %v in %v: %v" |};
               {| Code := EvalError;
                  Err := Newf 0%nat "cannot use %s (type %s) as %s in %v" |} ];
     pos := 0%nat; vertices := [] |}.

(** The arcs of a node whose label satisfies [P], in order. *)
Definition arcsWhere (P : Feature -> bool) (vs : list Vertex) (arcs : list loc)
  : list loc :=
  List.filter
    (fun a => match vs !! a with Some n => P (Label n) | None => false end)
    arcs.

(** Every arc of the node points to an allocated node. *)
Definition arcsAllocated (s : State) (x : Vertex) : Prop :=
  Forall (fun a => is_Some (vertices s !! a)) (Arcs x).

(** The elements of a list node: its arcs with an integer label. *)
Definition elements (s : State) (x : Vertex) : list loc :=
  arcsWhere IsInt (vertices s) (Arcs x).

(** The regular arcs of a struct node: hidden fields and definitions are
    left out. *)
Definition regularArcs (s : State) (x : Vertex) : list loc :=
  arcsWhere IsRegular (vertices s) (Arcs x).

(** The integer value [len] returns for a sequence of that length. *)
Definition intLen {A} (l : list A) : Value := int (Z.of_nat (length l)).

Definition leaf (t : FeatureType) (i : nat) : Vertex :=
  {| Parent := Some 0%nat;
     Label := {| Index := i; Typ := t |};
     status := Finalized;
     BaseValue := BVAtom (ANum {| K := IntKind; X := apd.of_Z 1 |});
     Arcs := [];
     Conjuncts := [] |}.

Definition node (b : BaseValueT) (arcs : list loc) : Vertex :=
  {| Parent := None;
     Label := {| Index := 0; Typ := StringLabel |};
     status := Finalized;
     BaseValue := b;
     Arcs := arcs;
     Conjuncts := [] |}.

(** A store with a struct at 0 that has two regular fields (1 and 4), a
    hidden field (2) and a definition (3); a list at 5 with the elements 6
    and 7; an empty list at 8; a node at 9 resolved to three bytes; and an
    unevaluated node at 10. *)
Definition store1 : State :=
  {| errs := [];
     pos := 0%nat;
     vertices :=
       [ node (StructMarker false) [1; 2; 3; 4]%nat;
         leaf StringLabel 1; leaf HiddenLabel 2; leaf DefinitionLabel 3;
         leaf StringLabel 4;
         node (ListMarker false) [6; 7]%nat;
         leaf IntLabel 0; leaf IntLabel 1;
         node (ListMarker false) [];
         node (BVAtom (ABytes ["a"; "b"; "c"]%byte)) [];
         emptyVertex ] |}.

(** [unwraps s v w]: the argument [v] of [len] is neither a list node, nor
    a struct node, nor an unevaluated node, and [w] is the value the second
    switch of [len] examines: [v] itself, or what the node [v] has been
    resolved to. *)
Inductive unwraps (s : State) : Value -> Value -> Prop :=
| unwraps_atom (a : Atom) : unwraps s (VAtom a) (VAtom a)
| unwraps_conjunction (l : list Value) :
    unwraps s (VConjunction l) (VConjunction l)
| unwraps_node (p : loc) (x : Vertex) (a : Atom) :
    vertices s !! p = Some x -> BaseValue x = BVAtom a ->
    unwraps s (VVertex p) (VAtom a).

Definition isBytesOrString (v : Value) : bool :=
  match v with
  | VAtom (ABytes _) | VAtom (AString _) => true
  | _ => false
  end.

(** A soft error made at the current position of [s]. *)
Definition softError (s : State) (msg : string) : Value :=
  VAtom (ABottom {| Code := IncompleteError; Err := Newf (pos s) msg |}).

(** An evaluator's answer to [IsClosed], used to run the builtins on
    examples: a struct is closed when its marker says so, a list when it is
    not open. *)
Definition markerClosed (c : State) (v : Vertex) : bool :=
  match BaseValue v with
  | StructMarker needClose => needClose
  | ListMarker isOpen => negb isOpen
  | _ => false
  end.

(** The state after one more node has been allocated. *)
Definition withVertex (s : State) (v : Vertex) : State :=
  {| errs := errs s; pos := pos s; vertices := vertices s ++ [v] |}.

(** The alternatives [or] builds from the elements [es]: one per element,
    in order, none of them a default. *)
Definition alternatives (es : list loc) : list Disjunct :=
  map (fun e => mkDisjunct (EValue (VVertex e)) false) es.

(** An evaluator's [Unify], used to run [or] on examples: it marks the node
    with the status asked for. *)
Definition markStatus (c : State) (p : loc) (st : VertexStatus) : State :=
  match vertices c !! p with
  | Some v =>
      {| errs := errs c; pos := pos c;
         vertices :=
           <[p := {| Parent := Parent v; Label := Label v; status := st;
                     BaseValue := BaseValue v; Arcs := Arcs v;
                     Conjuncts := Conjuncts v |}]> (vertices c) |}
  | None => c
  end.

(** A numeric argument of any kind and scale. *)
Definition num (n : Num) : Value := VAtom (ANum n).

(** The integer an operand stands for once [intDivOp] has rounded it and
    folded its sign into the coefficient. *)
Definition roundedInt (n : Num) : Z := apd.Coeff (signedOperand n).

(** Seven and a half, of kind [Float]. *)
Definition sevenAndAHalf : Num :=
  {| K := FloatKind;
     X := {| apd.Negative := false; apd.Exponent := -1; apd.Coeff := 75 |} |}.

(** The builtin [o] applied to the integers [x] and [y] returns the integer
    [z] and leaves the state as it is. *)
Definition returnsInt (o : divOp) (x y z : Z) (s : State) : Prop :=
  builtinOf o [int x; int y] s = Ret (Some (EValue (int z))) s.

(** An argument that points nowhere it should not: when it is a node, the
    node and its arcs are allocated. *)
Definition allocatedArg (s : State) (v : Value) : Prop :=
  match v with
  | VVertex p => exists x, vertices s !! p = Some x /\ arcsAllocated s x
  | _ => True
  end.

Definition isNode (v : Value) : bool :=
  match v with
  | VVertex _ => true
  | _ => false
  end.

(** A decimal that stands for an integer: it has no fractional digits, or
    those it has are all zero. *)
Definition integral (d : apd.Decimal) : Prop :=
  0 <= apd.Exponent d \/ (10 ^ (- apd.Exponent d) | apd.Coeff d).

(** The integer nearest to the value of a decimal, a tie going away from
    zero: the magnitude [c * 10 ^ e] when [e] is not negative, and
    [floor (c / 10 ^ (- e) + 1/2)] otherwise, with the sign of the
    decimal. *)
Definition nearestInt (d : apd.Decimal) : Z :=
  let m :=
    if 0 <=? apd.Exponent d then apd.Coeff d * 10 ^ apd.Exponent d
    else (2 * apd.Coeff d + 10 ^ (- apd.Exponent d))
         / (2 * 10 ^ (- apd.Exponent d)) in
  if apd.Negative d then - m else m.

(** What each builtin of the family computes, on the integers. *)
Definition mathOf (o : divOp) (x y : Z) : Z :=
  match o with
  | opDiv => Z.sgn y * (x / Z.abs y)
  | opMod => x mod Z.abs y
  | opQuo => Z.quot x y
  | opRem => Z.rem x y
  end.

(** * Properties of the builtins *)

(** ** The division family *)

Section Division.

Lemma QuoRem_nonzero (x y : Z) :
  y <> 0 -> big.QuoRem x y = Some (Z.quot x y, Z.rem x y).
Proof.
  intros Hy. unfold big.QuoRem.
  destruct (Z.eqb_spec y 0) as [E | _]; [contradiction | reflexivity].
Qed.

Lemma QuoRem_zero (x : Z) : big.QuoRem x 0 = None.
Proof. reflexivity. Qed.

Lemma Div_Mod_euclid (x y : Z) :
  y <> 0 ->
  exists q m,
    big.Div x y = Some q /\ big.Mod x y = Some m /\
    q * y + m = x /\ 0 <= m < Z.abs y.
Proof.
  intros Hy. unfold big.Div, big.Mod.
  rewrite (QuoRem_nonzero x y Hy). cbn.
  pose proof (Z.quot_rem' x y) as Hqr.
  pose proof (Z.rem_bound_abs x y Hy) as Hb.
  destruct (Z.ltb_spec (Z.rem x y) 0) as [Hr | Hr];
    destruct (Z.ltb_spec y 0) as [Hn | Hn];
    eexists; eexists; (split; [reflexivity |]); (split; [reflexivity |]);
    split; lia.
Qed.

Lemma Quo_Rem_trunc (x y : Z) :
  y <> 0 ->
  exists q r,
    big.Quo x y = Some q /\ big.Rem x y = Some r /\
    q * y + r = x /\ (Z.sgn r = 0 \/ Z.sgn r = Z.sgn x) /\
    Z.abs r < Z.abs y.
Proof.
  intros Hy. unfold big.Quo, big.Rem.
  rewrite (QuoRem_nonzero x y Hy). cbn.
  exists (Z.quot x y), (Z.rem x y).
  repeat split.
  - pose proof (Z.quot_rem' x y). lia.
  - destruct (Z.eq_dec (Z.rem x y) 0) as [E | E].
    + left. rewrite E. reflexivity.
    + right. apply Z.rem_sign_nz; assumption.
  - apply Z.rem_bound_abs; assumption.
Qed.

(** Rounding leaves a scale-zero decimal as it is. *)
Lemma Round_of_Z (n : Z) :
  apd.RoundToIntegralValue (apd.of_Z n) = apd.of_Z n.
Proof.
  unfold apd.RoundToIntegralValue, apd.of_Z.
  cbn [apd.Exponent apd.Coeff apd.Negative].
  change (0 <=? 0) with true. cbv iota.
  rewrite Z.pow_0_r, Z.mul_1_r. reflexivity.
Qed.

(** After the sign is folded into the coefficient, the operand reads as the
    integer it stands for. *)
Lemma signedOperand_int (k : Kind) (n : Z) :
  apd.Coeff (signedOperand {| K := k; X := apd.of_Z n |}) = n.
Proof.
  unfold signedOperand. cbn [X]. rewrite Round_of_Z.
  unfold apd.of_Z, setCoeff.
  cbn [apd.Coeff apd.Negative apd.Exponent].
  destruct (Z.ltb_spec n 0); cbn [apd.Coeff]; lia.
Qed.

(** The sign-and-magnitude form [intDivOp] builds for its result. *)
Lemma signMagnitude_of_Z (z : Z) : signMagnitude z = apd.of_Z z.
Proof.
  unfold signMagnitude, setCoeff, setNegative, apd.zero, apd.of_Z.
  cbn [apd.Coeff apd.Negative apd.Exponent].
  destruct (Z.ltb_spec z 0).
  - rewrite Z.abs_neq by lia. reflexivity.
  - rewrite Z.abs_eq by lia. reflexivity.
Qed.

Lemma IsZero_of_Z (n : Z) : apd.IsZero (apd.of_Z n) = (n =? 0).
Proof.
  unfold apd.IsZero, apd.of_Z. cbn.
  destruct (Z.eqb_spec n 0), (Z.eqb_spec (Z.abs n) 0); lia || reflexivity.
Qed.

(** [intDivOp] on two integers, the second of which is not zero, applies
    [fn] to them and returns its result as an integer. *)
Lemma intDivOp_int (fn : intFunc) (name : string) (x y z : Z) (s : State) :
  clean s -> y <> 0 -> fn x y = Some z ->
  intDivOp fn name [int x; int y] s = Ret (Some (int z)) s.
Proof.
  intros Hs Hy Hfn.
  unfold intDivOp, bind, arg, HasErr, NewNum, ret, int.
  cbn -[signedOperand signMagnitude apd.IsZero].
  rewrite Hs, IsZero_of_Z.
  destruct (Z.eqb_spec y 0) as [E | _]; [contradiction |].
  rewrite !signedOperand_int, Hfn, signMagnitude_of_Z. reflexivity.
Qed.

End Division.

(** C1.  For all integers [x] and [y] with [y] nonzero, [div] and [mod]
    return integers [q] and [m] with [q * y + m = x] and [0 <= m < |y|]:
    Euclidean division. *)
Theorem div_mod_euclidean (x y : Z) (s : State) :
  clean s -> y <> 0 ->
  exists q m : Z,
    divBuiltin [int x; int y] s = Ret (Some (EValue (int q))) s /\
    modBuiltin [int x; int y] s = Ret (Some (EValue (int m))) s /\
    q * y + m = x /\ 0 <= m < Z.abs y.
Proof.
  intros Hs Hy.
  destruct (Div_Mod_euclid x y Hy) as (q & m & Hq & Hm & Heq & Hb).
  exists q, m. repeat split; try lia.
  - unfold divBuiltin, bind.
    rewrite (intDivOp_int big.Div _ x y q s Hs Hy Hq). reflexivity.
  - unfold modBuiltin, bind.
    rewrite (intDivOp_int big.Mod _ x y m s Hs Hy Hm). reflexivity.
Qed.

Lemma div_mod_euclidean_witness :
  exists q m : Z,
    divBuiltin [int (-7); int 2] state0 = Ret (Some (EValue (int q))) state0 /\
    modBuiltin [int (-7); int 2] state0 = Ret (Some (EValue (int m))) state0 /\
    q * 2 + m = -7 /\ 0 <= m < Z.abs 2.
Proof.
  apply (div_mod_euclidean (-7) 2 state0); [reflexivity | lia].
Defined.

(** C2.  For all integers [x] and [y] with [y] nonzero, [quo] and [rem]
    return integers [q] and [r] with [q * y + r = x], where [r] is zero or
    has the sign of [x], and [|r| < |y|]: division truncated toward zero. *)
Theorem quo_rem_truncated (x y : Z) (s : State) :
  clean s -> y <> 0 ->
  exists q r : Z,
    quoBuiltin [int x; int y] s = Ret (Some (EValue (int q))) s /\
    remBuiltin [int x; int y] s = Ret (Some (EValue (int r))) s /\
    q * y + r = x /\ (Z.sgn r = 0 \/ Z.sgn r = Z.sgn x) /\
    Z.abs r < Z.abs y.
Proof.
  intros Hs Hy.
  destruct (Quo_Rem_trunc x y Hy) as (q & r & Hq & Hr & Heq & Hsg & Hb).
  exists q, r. repeat split; try assumption.
  - unfold quoBuiltin, bind.
    rewrite (intDivOp_int big.Quo _ x y q s Hs Hy Hq). reflexivity.
  - unfold remBuiltin, bind.
    rewrite (intDivOp_int big.Rem _ x y r s Hs Hy Hr). reflexivity.
Qed.

Lemma quo_rem_truncated_witness :
  exists q r : Z,
    quoBuiltin [int 7; int (-2)] state0 = Ret (Some (EValue (int q))) state0 /\
    remBuiltin [int 7; int (-2)] state0 = Ret (Some (EValue (int r))) state0 /\
    q * (-2) + r = 7 /\ (Z.sgn r = 0 \/ Z.sgn r = Z.sgn 7) /\
    Z.abs r < Z.abs (-2).
Proof.
  apply (quo_rem_truncated 7 (-2) state0); [reflexivity | lia].
Defined.

Section Conversion.

Lemma builtinOf_intDivOp (o : divOp) (args : list Value) (s : State) :
  builtinOf o args s =
  match intDivOp (fnOf o) (nameOf o) args s with
  | Ret r s' => Ret (EValue <$> r) s'
  | Panic => Panic
  end.
Proof. destruct o; reflexivity. Qed.

Lemma typeErrorAs_registers (v : Value) (k : Kind) (name : string) (s : State) :
  exists e, typeErrorAs v k name s =
            Ret tt {| errs := errs s ++ [e]; pos := pos s;
                      vertices := vertices s |}.
Proof.
  unfold typeErrorAs, bind, KindOf, Pos, AddBottom.
  destruct (Z.land (Value_Kind (vertices s) v) k =? 0); eexists; reflexivity.
Qed.

(** The numeric conversion either succeeds and leaves the state alone, or
    records one failure. *)
Lemma Num_outcome (v : Value) (name : string) (s s' : State) (n : Num) :
  Num_ v name s = Ret n s' ->
  s' = s \/ exists e, registers s s' e.
Proof.
  unfold registers.
  assert (Hfail : forall r,
    bind (typeErrorAs v NumKind name) (fun _ => ret r) s = Ret n s' ->
    s' = s \/ exists e, s' = {| errs := errs s ++ [e]; pos := pos s;
                                vertices := vertices s |}).
  { intros r. unfold bind.
    destruct (typeErrorAs_registers v NumKind name s) as [e ->].
    unfold ret. intros [= _ <-]. right. exists e. reflexivity. }
  destruct v as [a | p | l]; cbn [Num_].
  - destruct a; try apply Hfail.
    unfold ret. intros [= _ <-]. left. reflexivity.
  - unfold bind at 1, deref.
    destruct (vertices s !! p) as [x |]; [| discriminate].
    destruct (BaseValue x) as [| | | a]; try apply Hfail.
    destruct a; try apply Hfail.
    unfold ret. intros [= _ <-]. left. reflexivity.
  - apply Hfail.
Qed.

Lemma registers_errs (s s' : State) (e : Bottom) :
  registers s s' e -> e ∈ errs s' /\ errs s' <> [].
Proof.
  intros ->. cbn. split.
  - apply elem_of_app. right. apply list_elem_of_singleton. reflexivity.
  - intros H. apply app_eq_nil in H. destruct H as [_ H]. discriminate.
Qed.

Lemma registers_keeps (s s' : State) (e e' : Bottom) :
  registers s s' e -> e' ∈ errs s -> e' ∈ errs s'.
Proof.
  intros -> H. cbn. apply elem_of_app. left. exact H.
Qed.

End Conversion.

Section ZeroGuard.

(** On a decimal that stands for an integer, rounding does not change
    whether it is zero. *)
Lemma IsZero_Round_integral (d : apd.Decimal) :
  integral d ->
  apd.IsZero (apd.RoundToIntegralValue d) = apd.IsZero d.
Proof.
  unfold integral, apd.IsZero, apd.RoundToIntegralValue.
  destruct (Z.leb_spec 0 (apd.Exponent d)) as [He | He];
    cbn [apd.Coeff]; intros Hd.
  - assert (Hp : 0 < 10 ^ apd.Exponent d) by (apply Z.pow_pos_nonneg; lia).
    destruct (Z.eqb_spec (apd.Coeff d * 10 ^ apd.Exponent d) 0) as [E | E];
      destruct (Z.eqb_spec (apd.Coeff d) 0) as [E' | E'];
      try reflexivity; nia.
  - destruct Hd as [Hd | [k Hk]]; [lia |].
    assert (Hp : 0 < 10 ^ (- apd.Exponent d)) by (apply Z.pow_pos_nonneg; lia).
    rewrite Hk, Z.div_mul, Z.mod_mul by lia.
    destruct (Z.leb_spec (10 ^ (- apd.Exponent d)) (2 * 0)) as [L | _]; [lia |].
    destruct (Z.eqb_spec k 0) as [E | E];
      destruct (Z.eqb_spec (k * 10 ^ (- apd.Exponent d)) 0) as [E' | E'];
      try reflexivity; nia.
Qed.

End ZeroGuard.

(** C3.  In every call of [div], [mod], [quo] or [rem] on two numbers, the
    divisor an integer as the declared parameter kinds have it, in which
    the divisor is zero once rounded, the builtin returns the hard error
    "division by zero": a [Bottom] whose code is [EvalError], not
    [IncompleteError].  No integer division is performed: the result is
    the same whatever integer function [intDivOp] is given. *)
Theorem division_by_zero (o : divOp) (a b : Value) (na nb : Num) (s : State) :
  clean s ->
  Num_ a (nameOf o) s = Ret na s ->
  Num_ b (nameOf o) s = Ret nb s ->
  integral (X nb) ->
  apd.IsZero (apd.RoundToIntegralValue (X nb)) = true ->
  builtinOf o [a; b] s =
    Ret (Some (EValue (VAtom (ABottom
           {| Code := EvalError;
              Err := {| ErrPos := pos s; Format := "division by zero" |} |}))))
        s /\
  (forall fn : intFunc,
     intDivOp fn (nameOf o) [a; b] s =
     Ret (Some (VAtom (ABottom
           {| Code := EvalError;
              Err := {| ErrPos := pos s; Format := "division by zero" |} |})))
         s).
Proof.
  intros Hs Ha Hb Hi Hz.
  rewrite (IsZero_Round_integral (X nb) Hi) in Hz.
  assert (Hop : forall fn : intFunc,
    intDivOp fn (nameOf o) [a; b] s =
    Ret (Some (hardError s "division by zero")) s).
  { intros fn. unfold intDivOp, bind, arg. cbn [lookup list_lookup].
    rewrite Ha, Hb. unfold HasErr. rewrite Hs, Hz. reflexivity. }
  split.
  - rewrite builtinOf_intDivOp, Hop. reflexivity.
  - exact Hop.
Qed.

Lemma division_by_zero_witness :
  builtinOf opQuo [int 5; int 0] state0 =
    Ret (Some (EValue (VAtom (ABottom
           {| Code := EvalError;
              Err := {| ErrPos := pos state0; Format := "division by zero" |} |}))))
        state0 /\
  (forall fn : intFunc,
     intDivOp fn (nameOf opQuo) [int 5; int 0] state0 =
     Ret (Some (VAtom (ABottom
           {| Code := EvalError;
              Err := {| ErrPos := pos state0; Format := "division by zero" |} |})))
         state0).
Proof.
  apply (division_by_zero opQuo (int 5) (int 0)
           {| K := IntKind; X := apd.of_Z 5 |}
           {| K := IntKind; X := apd.of_Z 0 |} state0);
    try reflexivity.
  left. cbn. lia.
Defined.

(** C10.  When the numeric conversion of either argument records a failure,
    each of [div], [mod], [quo] and [rem] returns [nil].  The state it
    returns in is the one reached after both conversions, so the second
    argument was converted before the check, and the failure of either
    side is among the accumulated errors. *)
Theorem failed_conversion_returns_nil
    (o : divOp) (a b : Value) (na nb : Num) (s s1 s2 : State) :
  Num_ a (nameOf o) s = Ret na s1 ->
  Num_ b (nameOf o) s1 = Ret nb s2 ->
  s1 <> s \/ s2 <> s1 ->
  builtinOf o [a; b] s = Ret None s2 /\
  (forall fn : intFunc, intDivOp fn (nameOf o) [a; b] s = Ret None s2) /\
  errs s2 <> [] /\
  (s1 <> s -> exists e, registers s s1 e /\ e ∈ errs s2) /\
  (s2 <> s1 -> exists e, registers s1 s2 e /\ e ∈ errs s2).
Proof.
  intros Ha Hb Hfail.
  pose proof (Num_outcome _ _ _ _ _ Ha) as Oa.
  pose proof (Num_outcome _ _ _ _ _ Hb) as Ob.
  assert (Hne : errs s2 <> []).
  { destruct Ob as [-> | [e2 R2]].
    - destruct Oa as [-> | [e1 R1]].
      + destruct Hfail; congruence.
      + apply (registers_errs _ _ _ R1).
    - apply (registers_errs _ _ _ R2). }
  assert (Hop : forall fn : intFunc,
    intDivOp fn (nameOf o) [a; b] s = Ret None s2).
  { intros fn. unfold intDivOp, bind, arg. cbn [lookup list_lookup].
    rewrite Ha, Hb. unfold HasErr.
    destruct (errs s2); [congruence | reflexivity]. }
  split; [rewrite builtinOf_intDivOp, Hop; reflexivity |].
  split; [exact Hop |].
  split; [exact Hne |].
  split.
  - intros N1. destruct Oa as [E | [e1 R1]]; [contradiction |].
    exists e1. split; [exact R1 |].
    destruct Ob as [-> | [e2 R2]].
    + apply (registers_errs _ _ _ R1).
    + apply (registers_keeps _ _ _ _ R2), (registers_errs _ _ _ R1).
  - intros N2. destruct Ob as [E | [e2 R2]]; [contradiction |].
    exists e2. split; [exact R2 |]. apply (registers_errs _ _ _ R2).
Qed.

Lemma failed_conversion_returns_nil_witness :
  builtinOf opMod [VAtom ATop; VAtom (AString "x")] state0 = Ret None stateTopString /\
  (forall fn : intFunc,
     intDivOp fn (nameOf opMod) [VAtom ATop; VAtom (AString "x")] state0 =
     Ret None stateTopString) /\
  errs stateTopString <> [] /\
  (stateTop <> state0 ->
   exists e, registers state0 stateTop e /\ e ∈ errs stateTopString) /\
  (stateTopString <> stateTop ->
   exists e, registers stateTop stateTopString e /\ e ∈ errs stateTopString).
Proof.
  apply (failed_conversion_returns_nil opMod (VAtom ATop) (VAtom (AString "x"))
           zeroNum zeroNum state0 stateTop stateTopString);
    [reflexivity | reflexivity | left; discriminate].
Defined.

(** ** [len] *)

Section Arcs.

Lemma filterArcs_spec (P : Feature -> bool) (arcs : list loc) (s : State) :
  Forall (fun a => is_Some (vertices s !! a)) arcs ->
  filterArcs P arcs s = Ret (arcsWhere P (vertices s) arcs) s.
Proof.
  induction 1 as [| a rest [n Hn] _ IH]; [reflexivity |].
  cbn [filterArcs]. unfold bind at 1, deref. rewrite Hn.
  unfold bind at 1. rewrite IH. unfold ret, arcsWhere. cbn [List.filter].
  rewrite Hn. reflexivity.
Qed.

Lemma countRegular_spec (arcs : list loc) (n : Z) (s : State) :
  Forall (fun a => is_Some (vertices s !! a)) arcs ->
  countRegular arcs n s =
  Ret (n + Z.of_nat (length (arcsWhere IsRegular (vertices s) arcs))) s.
Proof.
  intros H. revert n.
  induction H as [| a rest [v Hv] _ IH]; intros n.
  - cbn. unfold ret. f_equal. lia.
  - cbn [countRegular]. unfold bind, deref. rewrite Hv, IH.
    unfold arcsWhere. cbn [List.filter]. rewrite Hv.
    destruct (IsRegular (Label v)); cbn [length]; f_equal; lia.
Qed.

Lemma Vertex_Elems_spec (x : Vertex) (s : State) :
  arcsAllocated s x -> Vertex_Elems x s = Ret (elements s x) s.
Proof. apply filterArcs_spec. Qed.

End Arcs.



Example len_struct_example :
  lenBuiltin [VVertex 0%nat] store1 = Ret (Some (EValue (int 2))) store1.
Proof. reflexivity. Qed.

Example len_list_example :
  lenBuiltin [VVertex 5%nat] store1 = Ret (Some (EValue (int 2))) store1.
Proof. reflexivity. Qed.

Example len_bytes_example :
  lenBuiltin [VVertex 9%nat] store1 = Ret (Some (EValue (int 3))) store1.
Proof. reflexivity. Qed.

Example len_string_example :
  lenBuiltin [VAtom (AString "hello")] store1 = Ret (Some (EValue (int 5))) store1.
Proof. reflexivity. Qed.

Section Len.

Lemma unwraps_lenVertex (s : State) (v w : Value) :
  unwraps s v w -> lenVertex v s = Ret (inr w) s.
Proof.
  destruct 1 as [a | l | p x a Hp Hx]; try reflexivity.
  unfold lenVertex, bind, deref. rewrite Hp, Hx. reflexivity.
Qed.

(** The kind [len] tests is the kind of the argument. *)
Lemma unwraps_Kind (s : State) (v w : Value) :
  unwraps s v w -> Value_Kind (vertices s) v = Value_Kind (vertices s) w.
Proof.
  destruct 1 as [a | l | p x a Hp Hx]; try reflexivity.
  cbn [Value_Kind]. rewrite Hp, Hx. reflexivity.
Qed.

Lemma lenValue_default (s : State) (w : Value) :
  isBytesOrString w = false ->
  lenValue w s =
  if Z.land (Value_Kind (vertices s) w) supportedByLen =? BottomKind
  then Ret (Some (EValue (hardError s "invalid argument type %v"))) s
  else Ret (Some (EValue (softError s "incomplete argument %s (type %v)"))) s.
Proof.
  intros Hw.
  destruct w as [a | p | l]; [destruct a |..]; try discriminate Hw;
    unfold lenValue, bind, KindOf;
    match goal with
    | |- context [Z.land ?k supportedByLen =? BottomKind] =>
        destruct (Z.land k supportedByLen =? BottomKind)
    end; reflexivity.
Qed.

End Len.

(** C5, as the code has it.  For an argument that is not a list node, a
    struct node or an unevaluated node, and that does not unwrap to a bytes
    or string value: when its kind has nothing in common with
    [Struct|Bytes|String|List], [len] returns a hard error "invalid
    argument type"; otherwise (and then the value is not concrete) it
    returns a [Bottom] with code [IncompleteError], "incomplete argument". *)
Theorem len_rejects (s : State) (v w : Value) :
  unwraps s v w ->
  isBytesOrString w = false ->
  (Z.land (Value_Kind (vertices s) v) supportedByLen = BottomKind ->
   lenBuiltin [v] s =
   Ret (Some (EValue (hardError s "invalid argument type %v"))) s) /\
  (Z.land (Value_Kind (vertices s) v) supportedByLen <> BottomKind ->
   lenBuiltin [v] s =
   Ret (Some (EValue (softError s "incomplete argument %s (type %v)"))) s).
Proof.
  intros Hu Hw.
  rewrite (unwraps_Kind s v w Hu).
  unfold lenBuiltin, bind, arg. cbn [lookup list_lookup].
  rewrite (unwraps_lenVertex s v w Hu), (lenValue_default s w Hw).
  destruct (Z.eqb_spec (Z.land (Value_Kind (vertices s) w) supportedByLen)
              BottomKind) as [E | E];
    split; intros H; try reflexivity; contradiction.
Qed.

Lemma len_rejects_witness :
  (Z.land (Value_Kind (vertices store1) (VAtom (ABasicType StringKind)))
     supportedByLen = BottomKind ->
   lenBuiltin [VAtom (ABasicType StringKind)] store1 =
   Ret (Some (EValue (hardError store1 "invalid argument type %v"))) store1) /\
  (Z.land (Value_Kind (vertices store1) (VAtom (ABasicType StringKind)))
     supportedByLen <> BottomKind ->
   lenBuiltin [VAtom (ABasicType StringKind)] store1 =
   Ret (Some (EValue (softError store1 "incomplete argument %s (type %v)")))
       store1).
Proof.
  apply (len_rejects store1 (VAtom (ABasicType StringKind))
           (VAtom (ABasicType StringKind))).
  - constructor.
  - reflexivity.
Defined.

Example len_int_example :
  lenBuiltin [int 3] store1 =
  Ret (Some (EValue (hardError store1 "invalid argument type %v"))) store1.
Proof. reflexivity. Qed.

Example len_string_type_example :
  lenBuiltin [VAtom (ABasicType StringKind)] store1 =
  Ret (Some (EValue (softError store1 "incomplete argument %s (type %v)")))
      store1.
Proof. reflexivity. Qed.

(** C5, as the claim words it, fails on an unevaluated node.  The node at
    10 is not a list or struct node and unwraps to no bytes or string; its
    kind is [Top], which meets the accepted kinds, and it is not concrete.
    [len] answers with the hard error "unevaluated vertex": neither the
    "invalid argument type" error nor an [IncompleteError]. *)
Lemma len_unevaluated_node_hard_error :
  vertices store1 !! 10%nat = Some emptyVertex /\
  BaseValue emptyVertex = BVnil /\
  Z.land (Value_Kind (vertices store1) (VVertex 10%nat)) supportedByLen
    <> BottomKind /\
  lenBuiltin [VVertex 10%nat] store1 =
    Ret (Some (EValue (hardError store1 "unevaluated vertex"))) store1 /\
  lenBuiltin [VVertex 10%nat] store1 <>
    Ret (Some (EValue (softError store1 "incomplete argument %s (type %v)")))
        store1 /\
  lenBuiltin [VVertex 10%nat] store1 <>
    Ret (Some (EValue (hardError store1 "invalid argument type %v"))) store1.
Proof.
  repeat split; try reflexivity; vm_compute; discriminate.
Qed.

(** ** [close] *)

Section Close.

Variable IsClosed : State -> Vertex -> bool.

Lemma lookup_fresh (s : State) (v : Vertex) :
  vertices (withVertex s v) !! length (vertices s) = Some v.
Proof. cbn. apply list_lookup_middle. reflexivity. Qed.

Lemma lookup_old (s : State) (v w : Vertex) (r : loc) :
  vertices s !! r = Some w -> vertices (withVertex s v) !! r = Some w.
Proof. intros H. cbn. apply lookup_app_l_Some. exact H. Qed.

Lemma close_closed (s : State) (p : loc) (x : Vertex) :
  vertices s !! p = Some x -> IsClosed s x = true ->
  closeBuiltin IsClosed [VVertex p] s = Ret (Some (EValue (VVertex p))) s.
Proof.
  intros Hp Hc.
  unfold closeBuiltin, bind, arg, deref. cbn [lookup list_lookup].
  rewrite Hp, Hc. reflexivity.
Qed.

Lemma close_open (s : State) (p : loc) (x : Vertex) :
  vertices s !! p = Some x -> IsClosed s x = false ->
  closeBuiltin IsClosed [VVertex p] s =
  Ret (Some (EValue (VVertex (length (vertices s)))))
      (withVertex s (withBaseValue x (StructMarker true))).
Proof.
  intros Hp Hc.
  unfold closeBuiltin, bind, arg, deref. cbn [lookup list_lookup].
  rewrite Hp, Hc. reflexivity.
Qed.

End Close.

(** C6.  [close] is idempotent: closing the result of [close] returns that
    same node and leaves the store as it is; and on a node that is already
    closed [close] returns the very pointer it was given, allocating
    nothing.  The evaluator is taken to report a node whose marker has
    [NeedClose] set as closed. *)
Theorem close_idempotent
    (IsClosed : State -> Vertex -> bool) (s : State) (p : loc) (x : Vertex) :
  (forall c v, BaseValue v = StructMarker true -> IsClosed c v = true) ->
  vertices s !! p = Some x ->
  (IsClosed s x = true ->
   closeBuiltin IsClosed [VVertex p] s = Ret (Some (EValue (VVertex p))) s) /\
  exists (q : loc) (s1 : State),
    closeBuiltin IsClosed [VVertex p] s = Ret (Some (EValue (VVertex q))) s1 /\
    closeBuiltin IsClosed [VVertex q] s1 = Ret (Some (EValue (VVertex q))) s1.
Proof.
  intros Hmark Hp. split.
  - apply close_closed. exact Hp.
  - destruct (IsClosed s x) eqn:Hc.
    + exists p, s. split; apply (close_closed IsClosed s p x Hp Hc).
    + exists (length (vertices s)),
             (withVertex s (withBaseValue x (StructMarker true))).
      split; [apply (close_open IsClosed s p x Hp Hc) |].
      eapply close_closed; [apply lookup_fresh |].
      apply Hmark. reflexivity.
Qed.

Lemma close_idempotent_witness :
  (markerClosed store1 (node (StructMarker false) [1; 2; 3; 4]%nat) = true ->
   closeBuiltin markerClosed [VVertex 0%nat] store1 =
   Ret (Some (EValue (VVertex 0%nat))) store1) /\
  exists (q : loc) (s1 : State),
    closeBuiltin markerClosed [VVertex 0%nat] store1 =
      Ret (Some (EValue (VVertex q))) s1 /\
    closeBuiltin markerClosed [VVertex q] s1 = Ret (Some (EValue (VVertex q))) s1.
Proof.
  apply (close_idempotent markerClosed store1 0%nat
           (node (StructMarker false) [1; 2; 3; 4]%nat)).
  - intros c v H. unfold markerClosed. rewrite H. reflexivity.
  - reflexivity.
Defined.

(** C7.  [close] changes no node of the store it was called in: its input,
    the arcs of its input and every other node are afterwards what they
    were, and so are the context's errors.  When the input is not closed
    already, the result is a node no pointer referred to before, equal to
    the input in every field but [BaseValue], which is the marker with
    [NeedClose] set; its [Arcs] are the input's pointers, so the arcs are
    shared, not copied: exactly one node is allocated. *)
Theorem close_frame
    (IsClosed : State -> Vertex -> bool) (s : State) (p : loc) (x : Vertex) :
  vertices s !! p = Some x ->
  exists (q : loc) (s1 : State),
    closeBuiltin IsClosed [VVertex p] s = Ret (Some (EValue (VVertex q))) s1 /\
    (forall r v, vertices s !! r = Some v -> vertices s1 !! r = Some v) /\
    errs s1 = errs s /\
    pos s1 = pos s /\
    (IsClosed s x = false ->
     vertices s !! q = None /\
     length (vertices s1) = S (length (vertices s)) /\
     exists y,
       vertices s1 !! q = Some y /\
       BaseValue y = StructMarker true /\
       Arcs y = Arcs x /\
       Parent y = Parent x /\
       Label y = Label x /\
       status y = status x /\
       Conjuncts y = Conjuncts x).
Proof.
  intros Hp.
  destruct (IsClosed s x) eqn:Hc.
  - exists p, s. split; [apply (close_closed IsClosed s p x Hp Hc) |].
    repeat split; try discriminate. intros r v H. exact H.
  - exists (length (vertices s)),
           (withVertex s (withBaseValue x (StructMarker true))).
    split; [apply (close_open IsClosed s p x Hp Hc) |].
    split; [intros r v H; apply lookup_old; exact H |].
    split; [reflexivity |].
    split; [reflexivity |].
    intros _.
    split; [apply lookup_ge_None; lia |].
    split; [cbn; rewrite length_app; cbn; lia |].
    exists (withBaseValue x (StructMarker true)).
    split; [apply lookup_fresh |].
    repeat split.
Qed.

Lemma close_frame_witness :
  exists (q : loc) (s1 : State),
    closeBuiltin markerClosed [VVertex 0%nat] store1 =
      Ret (Some (EValue (VVertex q))) s1 /\
    (forall r v, vertices store1 !! r = Some v -> vertices s1 !! r = Some v) /\
    errs s1 = errs store1 /\
    pos s1 = pos store1 /\
    (markerClosed store1 (node (StructMarker false) [1; 2; 3; 4]%nat) = false ->
     vertices store1 !! q = None /\
     length (vertices s1) = S (length (vertices store1)) /\
     exists y,
       vertices s1 !! q = Some y /\
       BaseValue y = StructMarker true /\
       Arcs y = Arcs (node (StructMarker false) [1; 2; 3; 4]%nat) /\
       Parent y = Parent (node (StructMarker false) [1; 2; 3; 4]%nat) /\
       Label y = Label (node (StructMarker false) [1; 2; 3; 4]%nat) /\
       status y = status (node (StructMarker false) [1; 2; 3; 4]%nat) /\
       Conjuncts y = Conjuncts (node (StructMarker false) [1; 2; 3; 4]%nat)).
Proof.
  apply (close_frame markerClosed store1 0%nat
           (node (StructMarker false) [1; 2; 3; 4]%nat)).
  reflexivity.
Defined.

Example close_example :
  closeBuiltin markerClosed [VVertex 0%nat] store1 =
  Ret (Some (EValue (VVertex 11%nat)))
      (withVertex store1 (node (StructMarker true) [1; 2; 3; 4]%nat)).
Proof. reflexivity. Qed.

Example close_not_concrete_example :
  closeBuiltin markerClosed [VAtom ATop] store1 =
  Ret (Some (EValue (hardError store1 "struct argument must be concrete")))
      store1.
Proof. reflexivity. Qed.

(** ** [and] and [or] *)

Section Fold.

Lemma fold_left_snoc {A B} (f : A -> B) (l : list A) (acc : list B) :
  fold_left (fun a c => a ++ [f c]) l acc = acc ++ map f l.
Proof.
  revert acc. induction l as [| c l IH]; intros acc; cbn.
  - rewrite app_nil_r. reflexivity.
  - rewrite IH, <- app_assoc. reflexivity.
Qed.

Lemma Elems_list (s : State) (p : loc) (x : Vertex) :
  vertices s !! p = Some x -> IsList x = true -> arcsAllocated s x ->
  Elems (VVertex p) s = Ret (elements s x) s.
Proof.
  intros Hp Hl Hx. unfold Elems, bind, deref.
  rewrite Hp, Hl. apply Vertex_Elems_spec. exact Hx.
Qed.

Lemma AddConjunct_fresh (s : State) (c : Conjunct) :
  AddConjunct (length (vertices s)) c (withVertex s emptyVertex) =
  Ret tt (withVertex s (addConjunct emptyVertex c)).
Proof.
  unfold AddConjunct, bind, deref. rewrite lookup_fresh.
  cbn [BaseValue emptyVertex]. unfold store. rewrite lookup_fresh.
  unfold withVertex. cbn [errs pos vertices]. do 2 f_equal.
  rewrite insert_app_r_alt by lia.
  rewrite Nat.sub_diag. reflexivity.
Qed.

End Fold.

(** C8.  On an empty list [and] returns [Top]; on a list with elements it
    returns the conjunction whose terms are those elements, in their order.
    Nothing is evaluated: the store and the context are left as they
    were. *)
Theorem and_folds (s : State) (p : loc) (x : Vertex) :
  vertices s !! p = Some x ->
  IsList x = true ->
  arcsAllocated s x ->
  (elements s x = [] ->
   andBuiltin [VVertex p] s = Ret (Some (EValue (VAtom ATop))) s) /\
  (elements s x <> [] ->
   andBuiltin [VVertex p] s =
   Ret (Some (EValue (VConjunction (map VVertex (elements s x))))) s).
Proof.
  intros Hp Hl Hx.
  unfold andBuiltin, bind, arg. cbn [lookup list_lookup].
  rewrite (Elems_list s p x Hp Hl Hx), fold_left_snoc.
  destruct (elements s x) as [| e es]; split; intros H;
    try reflexivity; congruence.
Qed.

Lemma and_folds_witness :
  (elements store1 (node (ListMarker false) [6; 7]%nat) = [] ->
   andBuiltin [VVertex 5%nat] store1 = Ret (Some (EValue (VAtom ATop))) store1) /\
  (elements store1 (node (ListMarker false) [6; 7]%nat) <> [] ->
   andBuiltin [VVertex 5%nat] store1 =
   Ret (Some (EValue (VConjunction
         (map VVertex (elements store1 (node (ListMarker false) [6; 7]%nat))))))
       store1).
Proof.
  apply (and_folds store1 5%nat (node (ListMarker false) [6; 7]%nat)).
  - reflexivity.
  - reflexivity.
  - unfold arcsAllocated. cbn [Arcs node].
    repeat constructor; eexists; reflexivity.
Defined.

Example and_example :
  andBuiltin [VVertex 5%nat] store1 =
  Ret (Some (EValue (VConjunction [VVertex 6%nat; VVertex 7%nat]))) store1.
Proof. reflexivity. Qed.

Example and_empty_example :
  andBuiltin [VVertex 8%nat] store1 = Ret (Some (EValue (VAtom ATop))) store1.
Proof. reflexivity. Qed.

(** C9.  On an empty list [or] returns a [Bottom] with code
    [IncompleteError], "empty list in call to or", not a hard error.  On
    a list with elements it allocates a node at a pointer not in use,
    anonymous and unevaluated, whose only conjunct is the disjunction of
    the elements, in order, each marked as not a default and the whole
    marked as having no defaults; it calls the evaluator's [Unify] on
    that node with the target status [Finalized], and returns the node,
    in the state [Unify] produced.  Whenever [Unify] leaves the node it
    is given in the status it is asked for, the node returned is
    finalized. *)
Theorem or_folds
    (Unify : State -> loc -> VertexStatus -> State)
    (s : State) (p : loc) (x : Vertex) :
  vertices s !! p = Some x ->
  IsList x = true ->
  arcsAllocated s x ->
  (elements s x = [] ->
   orBuiltin Unify [VVertex p] s =
   Ret (Some (EValue (VAtom (ABottom
          {| Code := IncompleteError;
             Err := {| ErrPos := pos s;
                       Format := "empty list in call to or" |} |}))))
       s) /\
  (elements s x <> [] ->
   let q := length (vertices s) in
   let y :=
     {| Parent := None;
        Label := {| Index := 0; Typ := StringLabel |};
        status := Unprocessed;
        BaseValue := BVnil;
        Arcs := [];
        Conjuncts :=
          [ {| Env := None;
               x := DisjunctionExpr
                      (map (fun e => mkDisjunct (EValue (VVertex e)) false)
                           (elements s x))
                      false |} ] |} in
   let s0 := {| errs := errs s; pos := pos s; vertices := vertices s ++ [y] |} in
   orBuiltin Unify [VVertex p] s =
     Ret (Some (EValue (VVertex q))) (Unify s0 q Finalized) /\
   vertices s !! q = None /\
   vertices s0 !! q = Some y /\
   ((forall c r st z, vertices (Unify c r st) !! r = Some z -> status z = st) ->
    forall (r : Result) (s1 : State) (z : Vertex),
      orBuiltin Unify [VVertex p] s = Ret r s1 ->
      vertices s1 !! q = Some z -> status z = Finalized)).
Proof.
  intros Hp Hl Hx.
  unfold orBuiltin, bind, arg. cbn [lookup list_lookup].
  rewrite (Elems_list s p x Hp Hl Hx), fold_left_snoc.
  cbn [app]. fold (alternatives (elements s x)).
  destruct (elements s x) as [| e es] eqn:E; split; intros H;
    try reflexivity; try congruence.
  cbv zeta.
  assert (Hrun :
    (if (length (alternatives (e :: es)) =? 0)%nat
     then p0 <- Pos ;;
          bottom {| Code := IncompleteError;
                    Err := Newf p0 "empty list in call to or" |}
     else v <- alloc emptyVertex ;;
          _ <- AddConjunct v
                 (MakeRootConjunct None
                    (DisjunctionExpr (alternatives (e :: es)) false)) ;;
          _ <- (fun c => Ret tt (Unify c v Finalized)) ;;
          value (VVertex v)) s =
    Ret (Some (EValue (VVertex (length (vertices s)))))
        (Unify
           (withVertex s
              (addConjunct emptyVertex
                 (MakeRootConjunct None
                    (DisjunctionExpr (alternatives (e :: es)) false))))
           (length (vertices s)) Finalized)).
  { cbn [alternatives map length Nat.eqb]. unfold bind at 1, alloc.
    fold (withVertex s emptyVertex).
    unfold bind at 1. rewrite AddConjunct_fresh. reflexivity. }
  split; [exact Hrun |].
  split; [apply lookup_ge_None; lia |].
  split; [apply list_lookup_middle; reflexivity |].
  intros HU r s1 z Hr Hz.
  unfold bind in Hrun. rewrite Hrun in Hr.
  injection Hr as _ <-.
  apply (HU _ _ _ _ Hz).
Qed.

Lemma or_folds_witness :
  (elements store1 (node (ListMarker false) [6; 7]%nat) = [] ->
   orBuiltin markStatus [VVertex 5%nat] store1 =
   Ret (Some (EValue (VAtom (ABottom
          {| Code := IncompleteError;
             Err := {| ErrPos := pos store1;
                       Format := "empty list in call to or" |} |}))))
       store1) /\
  (elements store1 (node (ListMarker false) [6; 7]%nat) <> [] ->
   let q := length (vertices store1) in
   let y :=
     {| Parent := None;
        Label := {| Index := 0; Typ := StringLabel |};
        status := Unprocessed;
        BaseValue := BVnil;
        Arcs := [];
        Conjuncts :=
          [ {| Env := None;
               x := DisjunctionExpr
                      (map (fun e => mkDisjunct (EValue (VVertex e)) false)
                           (elements store1 (node (ListMarker false) [6; 7]%nat)))
                      false |} ] |} in
   let s0 := {| errs := errs store1; pos := pos store1;
                vertices := vertices store1 ++ [y] |} in
   orBuiltin markStatus [VVertex 5%nat] store1 =
     Ret (Some (EValue (VVertex q))) (markStatus s0 q Finalized) /\
   vertices store1 !! q = None /\
   vertices s0 !! q = Some y /\
   ((forall c r st z,
       vertices (markStatus c r st) !! r = Some z -> status z = st) ->
    forall (r : Result) (s1 : State) (z : Vertex),
      orBuiltin markStatus [VVertex 5%nat] store1 = Ret r s1 ->
      vertices s1 !! q = Some z -> status z = Finalized)).
Proof.
  apply (or_folds markStatus store1 5%nat (node (ListMarker false) [6; 7]%nat)).
  - reflexivity.
  - reflexivity.
  - unfold arcsAllocated. cbn [Arcs node].
    repeat constructor; eexists; reflexivity.
Defined.

(** [markStatus] is an evaluator of the kind the last part of C9 speaks
    of. *)
Lemma markStatus_sets_status (c : State) (r : loc) (st : VertexStatus) (y : Vertex) :
  vertices (markStatus c r st) !! r = Some y -> status y = st.
Proof.
  unfold markStatus.
  destruct (vertices c !! r) as [v |] eqn:Hr; [| congruence].
  cbn [vertices].
  rewrite list_lookup_insert_eq by (apply lookup_lt_Some in Hr; exact Hr).
  intros [= <-]. reflexivity.
Qed.

Example or_example :
  orBuiltin markStatus [VVertex 5%nat] store1 =
  Ret (Some (EValue (VVertex 11%nat)))
      {| errs := [];
         pos := 0%nat;
         vertices :=
           vertices store1 ++
           [ {| Parent := None;
                Label := {| Index := 0; Typ := StringLabel |};
                status := Finalized;
                BaseValue := BVnil;
                Arcs := [];
                Conjuncts :=
                  [ {| Env := None;
                       x := DisjunctionExpr
                              [ mkDisjunct (EValue (VVertex 6%nat)) false;
                                mkDisjunct (EValue (VVertex 7%nat)) false ]
                              false |} ] |} ] |}.
Proof. reflexivity. Qed.

Example or_empty_example :
  orBuiltin markStatus [VVertex 8%nat] store1 =
  Ret (Some (EValue (VAtom (ABottom
         {| Code := IncompleteError;
            Err := {| ErrPos := 0%nat;
                      Format := "empty list in call to or" |} |}))))
      store1.
Proof. reflexivity. Qed.

(** The examples of the specification. *)
Example division_examples :
  divBuiltin [int 7; int 2] state0 = Ret (Some (EValue (int 3))) state0 /\
  modBuiltin [int 7; int 2] state0 = Ret (Some (EValue (int 1))) state0 /\
  divBuiltin [int (-7); int 2] state0 = Ret (Some (EValue (int (-4)))) state0 /\
  modBuiltin [int (-7); int 2] state0 = Ret (Some (EValue (int 1))) state0 /\
  quoBuiltin [int (-7); int 2] state0 = Ret (Some (EValue (int (-3)))) state0 /\
  remBuiltin [int (-7); int 2] state0 = Ret (Some (EValue (int (-1)))) state0 /\
  quoBuiltin [int 7; int (-2)] state0 = Ret (Some (EValue (int (-3)))) state0 /\
  remBuiltin [int 7; int (-2)] state0 = Ret (Some (EValue (int 1))) state0.
Proof. repeat split. Qed.

(** * Further properties *)

(** ** Division: closed forms, symmetries, guards *)

Section DivisionMore.

(** Euclidean division in terms of the floor division of [Z]. *)
Lemma Div_floor (x y : Z) :
  y <> 0 -> big.Div x y = Some (Z.sgn y * (x / Z.abs y)).
Proof.
  intros Hy.
  destruct (Div_Mod_euclid x y Hy) as (q & m & Hq & _ & Heq & Hb).
  rewrite Hq. f_equal.
  destruct (Z.lt_trichotomy y 0) as [Hn | [E | Hp]]; [| contradiction |].
  - rewrite (Z.sgn_neg y Hn), (Z.abs_neq y) in * by lia.
    assert (- q = x / - y) by (apply (Z.div_unique x (- y) (- q) m); lia).
    lia.
  - rewrite (Z.sgn_pos y Hp), (Z.abs_eq y) in * by lia.
    assert (q = x / y) by (apply (Z.div_unique x y q m); lia).
    lia.
Qed.

Lemma Mod_floor (x y : Z) :
  y <> 0 -> big.Mod x y = Some (x mod Z.abs y).
Proof.
  intros Hy.
  destruct (Div_Mod_euclid x y Hy) as (q & m & _ & Hm & Heq & Hb).
  rewrite Hm. f_equal.
  destruct (Z.lt_trichotomy y 0) as [Hn | [E | Hp]]; [| contradiction |].
  - rewrite (Z.abs_neq y) in * by lia.
    apply (Z.mod_unique x (- y) (- q) m); lia.
  - rewrite (Z.abs_eq y) in * by lia.
    apply (Z.mod_unique x y q m); lia.
Qed.

Lemma Quo_quot (x y : Z) : y <> 0 -> big.Quo x y = Some (Z.quot x y).
Proof. intros Hy. unfold big.Quo. rewrite QuoRem_nonzero by exact Hy. reflexivity. Qed.

Lemma Rem_rem (x y : Z) : y <> 0 -> big.Rem x y = Some (Z.rem x y).
Proof. intros Hy. unfold big.Rem. rewrite QuoRem_nonzero by exact Hy. reflexivity. Qed.

Lemma fnOf_zero (o : divOp) (x : Z) : fnOf o x 0 = None.
Proof. destruct o; reflexivity. Qed.

(** A builtin of the family on two integers is its integer function. *)
Lemma builtinOf_int (o : divOp) (x y z : Z) (s : State) :
  clean s -> y <> 0 -> fnOf o x y = Some z -> returnsInt o x y z s.
Proof.
  intros Hs Hy Hfn. unfold returnsInt.
  rewrite builtinOf_intDivOp, (intDivOp_int _ _ x y z s Hs Hy Hfn).
  reflexivity.
Qed.

(** [intDivOp] on two numbers of any kind and scale. *)
Lemma intDivOp_num (fn : intFunc) (name : string) (na nb : Num) (s : State) :
  clean s -> apd.IsZero (X nb) = false ->
  intDivOp fn name [num na; num nb] s =
  match fn (roundedInt na) (roundedInt nb) with
  | Some z => Ret (Some (int z)) s
  | None => Panic
  end.
Proof.
  intros Hs Hz.
  unfold intDivOp, bind, arg, HasErr, NewNum, ret, num, roundedInt.
  cbn -[signedOperand signMagnitude apd.IsZero].
  rewrite Hs, Hz.
  destruct (fn _ _) as [z |]; [| reflexivity].
  rewrite signMagnitude_of_Z. reflexivity.
Qed.

End DivisionMore.

(** X1.  For integers [x] and [y] with [y] nonzero, [mod] returns
    [x mod |y|] and [div] returns [sgn y * (x / |y|)], where [/] and [mod]
    are the floor division of [Z]. *)
Theorem div_mod_closed_form (x y : Z) (s : State) :
  clean s -> y <> 0 ->
  returnsInt opDiv x y (Z.sgn y * (x / Z.abs y)) s /\
  returnsInt opMod x y (x mod Z.abs y) s.
Proof.
  intros Hs Hy. split; apply builtinOf_int; try assumption.
  - apply Div_floor. exact Hy.
  - apply Mod_floor. exact Hy.
Qed.

Lemma div_mod_closed_form_witness :
  returnsInt opDiv (-7) (-2) (Z.sgn (-2) * (-7 / Z.abs (-2))) state0 /\
  returnsInt opMod (-7) (-2) (-7 mod Z.abs (-2)) state0.
Proof.
  apply (div_mod_closed_form (-7) (-2) state0); [reflexivity | lia].
Defined.

(** X2.  How the two conventions differ.  With [q], [r] the results of
    [quo], [rem] and [d], [m] those of [div], [mod]: when [r] is not
    negative, which is the case whenever [x] is not negative, [d = q] and
    [m = r]; when [r] is negative, [d = q - sgn y] and [m = r + |y|]. *)
Theorem euclidean_versus_truncated (x y : Z) (s : State) :
  clean s -> y <> 0 ->
  exists q r d m : Z,
    returnsInt opQuo x y q s /\ returnsInt opRem x y r s /\
    returnsInt opDiv x y d s /\ returnsInt opMod x y m s /\
    (0 <= r -> d = q /\ m = r) /\
    (r < 0 -> d = q - Z.sgn y /\ m = r + Z.abs y) /\
    (0 <= x -> 0 <= r).
Proof.
  intros Hs Hy.
  exists (Z.quot x y), (Z.rem x y).
  set (r := Z.rem x y). set (q := Z.quot x y).
  exists (if r <? 0 then (if y <? 0 then q + 1 else q - 1) else q).
  exists (if r <? 0 then (if y <? 0 then r - y else r + y) else r).
  split; [apply builtinOf_int; try assumption; apply Quo_quot; exact Hy |].
  split; [apply builtinOf_int; try assumption; apply Rem_rem; exact Hy |].
  split.
  { apply builtinOf_int; try assumption.
    cbn [fnOf]. unfold big.Div. rewrite QuoRem_nonzero by exact Hy. reflexivity. }
  split.
  { apply builtinOf_int; try assumption.
    cbn [fnOf]. unfold big.Mod. rewrite QuoRem_nonzero by exact Hy. reflexivity. }
  split; [| split].
  - intros Hr. destruct (Z.ltb_spec r 0); [lia | split; reflexivity].
  - intros Hr. destruct (Z.ltb_spec r 0); [| lia].
    destruct (Z.ltb_spec y 0).
    + rewrite Z.sgn_neg, Z.abs_neq by lia. lia.
    + rewrite Z.sgn_pos, Z.abs_eq by lia. lia.
  - intros Hx. apply Z.rem_nonneg; assumption.
Qed.

Lemma euclidean_versus_truncated_witness :
  exists q r d m : Z,
    returnsInt opQuo (-7) 2 q state0 /\ returnsInt opRem (-7) 2 r state0 /\
    returnsInt opDiv (-7) 2 d state0 /\ returnsInt opMod (-7) 2 m state0 /\
    (0 <= r -> d = q /\ m = r) /\
    (r < 0 -> d = q - Z.sgn 2 /\ m = r + Z.abs 2) /\
    (0 <= -7 -> 0 <= r).
Proof.
  apply (euclidean_versus_truncated (-7) 2 state0); [reflexivity | lia].
Defined.

(** X3.  Signs.  [quo] changes sign with either operand and [rem] with the
    dividend only; [mod] does not see the sign of the divisor and [div]
    changes sign with it. *)
Theorem division_sign_symmetry (x y : Z) (s : State) :
  clean s -> y <> 0 ->
  exists q r d m : Z,
    returnsInt opQuo x y q s /\ returnsInt opRem x y r s /\
    returnsInt opDiv x y d s /\ returnsInt opMod x y m s /\
    returnsInt opQuo (- x) y (- q) s /\ returnsInt opQuo x (- y) (- q) s /\
    returnsInt opRem (- x) y (- r) s /\ returnsInt opRem x (- y) r s /\
    returnsInt opDiv x (- y) (- d) s /\ returnsInt opMod x (- y) m s.
Proof.
  intros Hs Hy.
  assert (Hy' : - y <> 0) by lia.
  exists (Z.quot x y), (Z.rem x y), (Z.sgn y * (x / Z.abs y)), (x mod Z.abs y).
  repeat split; apply builtinOf_int; try assumption; cbn [fnOf].
  - apply Quo_quot; assumption.
  - apply Rem_rem; assumption.
  - apply Div_floor; assumption.
  - apply Mod_floor; assumption.
  - rewrite Quo_quot, Z.quot_opp_l by assumption. reflexivity.
  - rewrite Quo_quot, Z.quot_opp_r by assumption. reflexivity.
  - rewrite Rem_rem, Z.rem_opp_l by assumption. reflexivity.
  - rewrite Rem_rem, Z.rem_opp_r by assumption. reflexivity.
  - rewrite Div_floor, Z.sgn_opp, Z.abs_opp by assumption. f_equal. lia.
  - rewrite Mod_floor, Z.abs_opp by assumption. reflexivity.
Qed.

Lemma division_sign_symmetry_witness :
  exists q r d m : Z,
    returnsInt opQuo 7 2 q state0 /\ returnsInt opRem 7 2 r state0 /\
    returnsInt opDiv 7 2 d state0 /\ returnsInt opMod 7 2 m state0 /\
    returnsInt opQuo (- 7) 2 (- q) state0 /\ returnsInt opQuo 7 (- 2) (- q) state0 /\
    returnsInt opRem (- 7) 2 (- r) state0 /\ returnsInt opRem 7 (- 2) r state0 /\
    returnsInt opDiv 7 (- 2) (- d) state0 /\ returnsInt opMod 7 (- 2) m state0.
Proof.
  apply (division_sign_symmetry 7 2 state0); [reflexivity | lia].
Defined.

(** X4.  An error that is already pending in the context silences the
    whole family: on any two integers, a zero divisor included, each of
    [div], [mod], [quo] and [rem] returns [nil], performs no division and
    leaves the state as it is. *)
Theorem pending_error_returns_nil (o : divOp) (x y : Z) (s : State) :
  errs s <> [] ->
  builtinOf o [int x; int y] s = Ret None s /\
  (forall fn : intFunc, intDivOp fn (nameOf o) [int x; int y] s = Ret None s).
Proof.
  intros Hs.
  assert (Hop : forall fn : intFunc,
    intDivOp fn (nameOf o) [int x; int y] s = Ret None s).
  { intros fn. unfold intDivOp, bind, arg, HasErr, ret, int.
    cbn -[signedOperand signMagnitude apd.IsZero].
    destruct (errs s); [congruence | reflexivity]. }
  split; [| exact Hop].
  rewrite builtinOf_intDivOp, Hop. reflexivity.
Qed.

Lemma pending_error_returns_nil_witness :
  builtinOf opDiv [int 7; int 0] stateTop = Ret None stateTop /\
  (forall fn : intFunc,
     intDivOp fn (nameOf opDiv) [int 7; int 0] stateTop = Ret None stateTop).
Proof.
  apply (pending_error_returns_nil opDiv 7 0 stateTop). discriminate.
Defined.

Section Rounding.

(** Rounding to nearest, on the magnitude. *)
Lemma round_half_up (c p : Z) :
  0 < p ->
  (if p <=? 2 * (c mod p) then c / p + 1 else c / p) = (2 * c + p) / (2 * p).
Proof.
  intros Hp.
  pose proof (Z.div_mod c p ltac:(lia)) as Hc.
  pose proof (Z.mod_pos_bound c p Hp) as Hr.
  destruct (Z.leb_spec p (2 * (c mod p))) as [L | L].
  - apply (Z.div_unique _ _ _ (2 * (c mod p) - p)); lia.
  - apply (Z.div_unique _ _ _ (2 * (c mod p) + p)); lia.
Qed.

(** [nearestInt] is within one half of the value of the decimal. *)
Lemma nearestInt_half (d : apd.Decimal) :
  apd.Negative d = false -> apd.Exponent d < 0 ->
  let p := 10 ^ (- apd.Exponent d) in
  2 * apd.Coeff d - p < 2 * p * nearestInt d <= 2 * apd.Coeff d + p.
Proof.
  intros Hn He p. unfold nearestInt. rewrite Hn.
  destruct (Z.leb_spec 0 (apd.Exponent d)) as [L | _]; [lia |].
  fold p.
  assert (Hp : 0 < p) by (apply Z.pow_pos_nonneg; lia).
  pose proof (Z.div_mod (2 * apd.Coeff d + p) (2 * p) ltac:(lia)) as Hc.
  pose proof (Z.mod_pos_bound (2 * apd.Coeff d + p) (2 * p) ltac:(lia)) as Hr.
  lia.
Qed.

(** The operand [intDivOp] works with is the integer nearest to the
    argument. *)
Lemma roundedInt_nearest (n : Num) : roundedInt n = nearestInt (X n).
Proof.
  unfold roundedInt, signedOperand, nearestInt, apd.RoundToIntegralValue, setCoeff.
  destruct (Z.leb_spec 0 (apd.Exponent (X n))) as [He | He];
    cbn [apd.Negative apd.Coeff apd.Exponent].
  - destruct (apd.Negative (X n)); reflexivity.
  - rewrite round_half_up by (apply Z.pow_pos_nonneg; lia).
    destruct (apd.Negative (X n)); reflexivity.
Qed.

Lemma nearestInt_zero (d : apd.Decimal) :
  apd.IsZero d = true -> nearestInt d = 0.
Proof.
  unfold apd.IsZero, nearestInt. intros H. apply Z.eqb_eq in H. rewrite H.
  destruct (Z.leb_spec 0 (apd.Exponent d)) as [He | He].
  - rewrite Z.mul_0_l. destruct (apd.Negative d); reflexivity.
  - assert (Hp : 0 < 10 ^ (- apd.Exponent d)) by (apply Z.pow_pos_nonneg; lia).
    rewrite Z.mul_0_r, Z.add_0_l, Z.div_small by lia.
    destruct (apd.Negative d); reflexivity.
Qed.

Lemma fnOf_mathOf (o : divOp) (x y : Z) :
  y <> 0 -> fnOf o x y = Some (mathOf o x y).
Proof.
  intros Hy. destruct o; cbn [fnOf mathOf].
  - apply Div_floor. exact Hy.
  - apply Mod_floor. exact Hy.
  - apply Quo_quot. exact Hy.
  - apply Rem_rem. exact Hy.
Qed.

End Rounding.

(** X5.  Whatever the kind and scale of its two numeric arguments, when
    the divisor rounds to an integer that is not zero, a builtin of the
    family returns what its operation gives on the integers nearest to
    the arguments, as an [Int]-kind number in sign-and-magnitude form with
    scale zero: the magnitude is the absolute value and the sign flag is
    set exactly when the result is negative, so there is no negative
    zero. *)
Theorem division_result_is_int (o : divOp) (na nb : Num) (s : State) :
  clean s ->
  nearestInt (X nb) <> 0 ->
  let z := mathOf o (nearestInt (X na)) (nearestInt (X nb)) in
  builtinOf o [VAtom (ANum na); VAtom (ANum nb)] s =
    Ret (Some (EValue (VAtom (ANum
           {| K := IntKind;
              X := {| apd.Negative := z <? 0;
                      apd.Exponent := 0;
                      apd.Coeff := Z.abs z |} |})))) s.
Proof.
  intros Hs Hy z.
  assert (Hz : apd.IsZero (X nb) = false).
  { destruct (apd.IsZero (X nb)) eqn:E; [| reflexivity].
    apply nearestInt_zero in E. contradiction. }
  rewrite builtinOf_intDivOp.
  fold (num na). fold (num nb).
  rewrite (intDivOp_num _ _ na nb s Hs Hz), !roundedInt_nearest.
  rewrite (fnOf_mathOf o _ _ Hy). reflexivity.
Qed.

Lemma division_result_is_int_witness :
  let z := mathOf opQuo (nearestInt (X sevenAndAHalf))
             (nearestInt (apd.of_Z (-2))) in
  builtinOf opQuo
    [VAtom (ANum sevenAndAHalf);
     VAtom (ANum {| K := IntKind; X := apd.of_Z (-2) |})] state0 =
    Ret (Some (EValue (VAtom (ANum
           {| K := IntKind;
              X := {| apd.Negative := z <? 0;
                      apd.Exponent := 0;
                      apd.Coeff := Z.abs z |} |})))) state0.
Proof.
  apply (division_result_is_int opQuo sevenAndAHalf
           {| K := IntKind; X := apd.of_Z (-2) |} state0).
  - reflexivity.
  - vm_compute. discriminate.
Defined.

Example division_rounds_example :
  builtinOf opQuo
    [VAtom (ANum sevenAndAHalf);
     VAtom (ANum {| K := IntKind; X := apd.of_Z (-2) |})] state0 =
  Ret (Some (EValue (VAtom (ANum
         {| K := IntKind;
            X := {| apd.Negative := true; apd.Exponent := 0;
                    apd.Coeff := 4 |} |})))) state0.
Proof. reflexivity. Qed.

(** X6.  The guard against a zero divisor looks at the divisor before it
    is rounded.  A divisor that is not zero but rounds to zero gets past
    it, and the integer function is then applied to a zero divisor: the
    call panics, for each of [div], [mod], [quo] and [rem]. *)
Theorem divisor_rounding_to_zero_panics (o : divOp) (na nb : Num) (s : State) :
  clean s ->
  apd.IsZero (X nb) = false ->
  roundedInt nb = 0 ->
  builtinOf o [num na; num nb] s = Panic.
Proof.
  intros Hs Hz Hr.
  rewrite builtinOf_intDivOp, (intDivOp_num _ _ na nb s Hs Hz), Hr, fnOf_zero.
  reflexivity.
Qed.

Lemma divisor_rounding_to_zero_panics_witness :
  builtinOf opRem [num sevenAndAHalf; num threeTenths] state0 = Panic.
Proof.
  apply (divisor_rounding_to_zero_panics opRem sevenAndAHalf threeTenths state0);
    reflexivity.
Defined.

(** ** [len], [close], [and] and [or] together *)

Section Nodes.

Lemma len_list_node (s : State) (p : loc) (x : Vertex) (o : bool) :
  vertices s !! p = Some x -> BaseValue x = ListMarker o -> arcsAllocated s x ->
  lenBuiltin [VVertex p] s = Ret (Some (EValue (intLen (elements s x)))) s.
Proof.
  intros Hp Hb Hx.
  unfold lenBuiltin, bind, arg. cbn [lookup list_lookup].
  unfold lenVertex, bind, deref. rewrite Hp, Hb.
  rewrite (Vertex_Elems_spec x s Hx). reflexivity.
Qed.

Lemma len_struct_node (s : State) (p : loc) (x : Vertex) (c : bool) :
  vertices s !! p = Some x -> BaseValue x = StructMarker c -> arcsAllocated s x ->
  lenBuiltin [VVertex p] s = Ret (Some (EValue (intLen (regularArcs s x)))) s.
Proof.
  intros Hp Hb Hx.
  unfold lenBuiltin, bind, arg. cbn [lookup list_lookup].
  unfold lenVertex, bind, deref. rewrite Hp, Hb.
  rewrite (countRegular_spec (Arcs x) 0 s Hx). reflexivity.
Qed.

Lemma len_unevaluated_node (s : State) (p : loc) (x : Vertex) :
  vertices s !! p = Some x -> BaseValue x = BVnil ->
  lenBuiltin [VVertex p] s =
  Ret (Some (EValue (hardError s "unevaluated vertex"))) s.
Proof.
  intros Hp Hb.
  unfold lenBuiltin, bind, arg. cbn [lookup list_lookup].
  unfold lenVertex, bind, deref. rewrite Hp, Hb. reflexivity.
Qed.

Lemma len_unwrapped (s : State) (v w : Value) :
  unwraps s v w -> lenBuiltin [v] s = lenValue w s.
Proof.
  intros Hu. unfold lenBuiltin, bind, arg. cbn [lookup list_lookup].
  rewrite (unwraps_lenVertex s v w Hu). reflexivity.
Qed.

(** What [lenValue] returns: a length or a failure, in the same state. *)
Lemma lenValue_total (s : State) (w : Value) :
  exists r : Value,
    lenValue w s = Ret (Some (EValue r)) s /\
    ((exists n : Z, 0 <= n /\ r = int n) \/ exists b : Bottom, r = VAtom (ABottom b)).
Proof.
  destruct (isBytesOrString w) eqn:Hw.
  - destruct w as [a | p | l]; try discriminate Hw.
    destruct a; try discriminate Hw; eexists; (split; [reflexivity |]);
      left; eexists; (split; [| reflexivity]); lia.
  - rewrite (lenValue_default s w Hw).
    destruct (_ =? _); eexists; (split; [reflexivity |]); right;
      eexists; reflexivity.
Qed.

(** Allocating one more node changes nothing for arcs that were allocated. *)
Lemma arcsWhere_withVertex (P : Feature -> bool) (s : State) (v : Vertex)
    (arcs : list loc) :
  Forall (fun a => is_Some (vertices s !! a)) arcs ->
  arcsWhere P (vertices (withVertex s v)) arcs = arcsWhere P (vertices s) arcs.
Proof.
  induction 1 as [| a rest [n Hn] _ IH]; [reflexivity |].
  unfold arcsWhere in *. cbn [List.filter]. rewrite IH.
  rewrite (lookup_old s v n a Hn), Hn. reflexivity.
Qed.

Lemma allocated_withVertex (s : State) (v : Vertex) (arcs : list loc) :
  Forall (fun a => is_Some (vertices s !! a)) arcs ->
  Forall (fun a => is_Some (vertices (withVertex s v) !! a)) arcs.
Proof.
  intros H. eapply Forall_impl; [exact H |].
  intros a [n Hn]. exists n. apply lookup_old. exact Hn.
Qed.

(** A length, as a decimal: no sign, scale zero. *)
Lemma of_Z_of_nat (n : nat) :
  apd.of_Z (Z.of_nat n) =
  {| apd.Negative := false; apd.Exponent := 0; apd.Coeff := Z.of_nat n |}.
Proof.
  unfold apd.of_Z. rewrite Z.abs_eq by lia.
  destruct (Z.ltb_spec (Z.of_nat n) 0); [lia | reflexivity].
Qed.

End Nodes.

(** X7.  [len] answers every argument whose pointers are allocated, and it
    answers with a value: a number that is not negative, or a [Bottom].  It
    never returns [nil] and never touches the state; in particular it
    records no error in the context, unlike the division family. *)
Theorem len_returns_value (s : State) (v : Value) :
  allocatedArg s v ->
  exists r : Value,
    lenBuiltin [v] s = Ret (Some (EValue r)) s /\
    ((exists n : Z, 0 <= n /\ r = int n) \/ exists b : Bottom, r = VAtom (ABottom b)).
Proof.
  intros Hv.
  destruct v as [a | p | l].
  - rewrite (len_unwrapped s _ _ (unwraps_atom s a)). apply lenValue_total.
  - destruct Hv as (x & Hp & Hx).
    destruct (BaseValue x) as [| o | c | a] eqn:Hb.
    + rewrite (len_unevaluated_node s p x Hp Hb).
      eexists. split; [reflexivity |]. right. eexists. reflexivity.
    + rewrite (len_list_node s p x o Hp Hb Hx).
      eexists. split; [reflexivity |]. left. eexists.
      split; [| reflexivity]. lia.
    + rewrite (len_struct_node s p x c Hp Hb Hx).
      eexists. split; [reflexivity |]. left. eexists.
      split; [| reflexivity]. lia.
    + rewrite (len_unwrapped s _ _ (unwraps_node s p x a Hp Hb)).
      apply lenValue_total.
  - rewrite (len_unwrapped s _ _ (unwraps_conjunction s l)). apply lenValue_total.
Qed.

Lemma len_returns_value_witness :
  exists r : Value,
    lenBuiltin [VVertex 0%nat] store1 = Ret (Some (EValue r)) store1 /\
    ((exists n : Z, 0 <= n /\ r = int n) \/ exists b : Bottom, r = VAtom (ABottom b)).
Proof.
  apply (len_returns_value store1 (VVertex 0%nat)).
  exists (node (StructMarker false) [1; 2; 3; 4]%nat).
  split; [reflexivity |].
  unfold arcsAllocated. cbn [Arcs node].
  repeat constructor; eexists; reflexivity.
Defined.

(** X8.  Closing a struct does not change its length: [len] of the node
    [close] returns, taken in the state [close] returns in, is [len] of
    the struct that was passed, and [len] of that struct is the same
    before and after the call. *)
Theorem len_of_close
    (IsClosed : State -> Vertex -> bool)
    (s : State) (p : loc) (x : Vertex) (c : bool) :
  vertices s !! p = Some x ->
  BaseValue x = StructMarker c ->
  arcsAllocated s x ->
  exists (q : loc) (s1 : State) (n : Value),
    closeBuiltin IsClosed [VVertex p] s = Ret (Some (EValue (VVertex q))) s1 /\
    lenBuiltin [VVertex p] s = Ret (Some (EValue n)) s /\
    lenBuiltin [VVertex q] s1 = Ret (Some (EValue n)) s1 /\
    lenBuiltin [VVertex p] s1 = Ret (Some (EValue n)) s1.
Proof.
  intros Hp Hb Hx.
  exists (if IsClosed s x then p else length (vertices s)).
  exists (if IsClosed s x then s
          else withVertex s (withBaseValue x (StructMarker true))).
  exists (intLen (regularArcs s x)).
  split; [| split; [apply (len_struct_node s p x c Hp Hb Hx) |]].
  - destruct (IsClosed s x) eqn:Hc.
    + apply (close_closed IsClosed s p x Hp Hc).
    + apply (close_open IsClosed s p x Hp Hc).
  - destruct (IsClosed s x).
    + split; apply (len_struct_node s p x c Hp Hb Hx).
    + set (y := withBaseValue x (StructMarker true)).
      assert (E : regularArcs (withVertex s y) x = regularArcs s x)
        by (apply arcsWhere_withVertex; exact Hx).
      split.
      * rewrite <- E.
        apply (len_struct_node (withVertex s y) _ y true).
        -- apply lookup_fresh.
        -- reflexivity.
        -- apply (allocated_withVertex s y (Arcs x) Hx).
      * rewrite <- E.
        apply (len_struct_node (withVertex s y) p x c).
        -- apply lookup_old. exact Hp.
        -- exact Hb.
        -- apply (allocated_withVertex s y (Arcs x) Hx).
Qed.

Lemma len_of_close_witness :
  exists (q : loc) (s1 : State) (n : Value),
    closeBuiltin markerClosed [VVertex 0%nat] store1 =
      Ret (Some (EValue (VVertex q))) s1 /\
    lenBuiltin [VVertex 0%nat] store1 = Ret (Some (EValue n)) store1 /\
    lenBuiltin [VVertex q] s1 = Ret (Some (EValue n)) s1 /\
    lenBuiltin [VVertex 0%nat] s1 = Ret (Some (EValue n)) s1.
Proof.
  apply (len_of_close markerClosed store1 0%nat
           (node (StructMarker false) [1; 2; 3; 4]%nat) false).
  - reflexivity.
  - reflexivity.
  - unfold arcsAllocated. cbn [Arcs node].
    repeat constructor; eexists; reflexivity.
Defined.

(** X9.  [len], [and] and [or] see the same elements of a list.  With
    [es] the elements, [len] returns their number; when there is none,
    [and] returns [Top] and [or] its soft error; otherwise [and] returns
    the conjunction of exactly the nodes [es], and the node [or]
    allocates and hands to the evaluator carries the disjunction of
    exactly the nodes [es]: as many terms and as many alternatives as
    [len] counts. *)
Theorem list_builtins_agree
    (Unify : State -> loc -> VertexStatus -> State)
    (s : State) (p : loc) (x : Vertex) :
  vertices s !! p = Some x ->
  IsList x = true ->
  arcsAllocated s x ->
  let es := elements s x in
  let terms := map VVertex es in
  let alts := map (fun e => mkDisjunct (EValue (VVertex e)) false) es in
  lenBuiltin [VVertex p] s =
    Ret (Some (EValue (VAtom (ANum
           {| K := IntKind;
              X := {| apd.Negative := false; apd.Exponent := 0;
                      apd.Coeff := Z.of_nat (length es) |} |})))) s /\
  length terms = length es /\
  length alts = length es /\
  (es = [] ->
   andBuiltin [VVertex p] s = Ret (Some (EValue (VAtom ATop))) s /\
   orBuiltin Unify [VVertex p] s =
     Ret (Some (EValue (VAtom (ABottom
            {| Code := IncompleteError;
               Err := {| ErrPos := pos s;
                         Format := "empty list in call to or" |} |}))))
         s) /\
  (es <> [] ->
   andBuiltin [VVertex p] s = Ret (Some (EValue (VConjunction terms))) s /\
   orBuiltin Unify [VVertex p] s =
     Ret (Some (EValue (VVertex (length (vertices s)))))
         (Unify
            {| errs := errs s;
               pos := pos s;
               vertices :=
                 vertices s ++
                 [ {| Parent := None;
                      Label := {| Index := 0; Typ := StringLabel |};
                      status := Unprocessed;
                      BaseValue := BVnil;
                      Arcs := [];
                      Conjuncts :=
                        [ {| Env := None;
                             x := DisjunctionExpr alts false |} ] |} ] |}
            (length (vertices s)) Finalized)).
Proof.
  intros Hp Hl Hx. cbv zeta.
  split.
  { unfold IsList in Hl. destruct (BaseValue x) as [| o | |] eqn:Hb;
      try discriminate Hl.
    rewrite (len_list_node s p x o Hp Hb Hx).
    unfold intLen, int. rewrite of_Z_of_nat. reflexivity. }
  split; [apply length_map |].
  split; [apply length_map |].
  unfold andBuiltin, orBuiltin, bind, arg. cbn [lookup list_lookup].
  rewrite (Elems_list s p x Hp Hl Hx), !fold_left_snoc.
  cbn [app]. fold (alternatives (elements s x)).
  destruct (elements s x) as [| e es]; split; intros H; try congruence.
  { split; reflexivity. }
  split; [reflexivity |].
  cbn [alternatives map length Nat.eqb]. unfold alloc.
  fold (withVertex s emptyVertex).
  rewrite AddConjunct_fresh. reflexivity.
Qed.

Lemma list_builtins_agree_witness :
  let es := elements store1 (node (ListMarker false) [6; 7]%nat) in
  let terms := map VVertex es in
  let alts := map (fun e => mkDisjunct (EValue (VVertex e)) false) es in
  lenBuiltin [VVertex 5%nat] store1 =
    Ret (Some (EValue (VAtom (ANum
           {| K := IntKind;
              X := {| apd.Negative := false; apd.Exponent := 0;
                      apd.Coeff := Z.of_nat (length es) |} |})))) store1 /\
  length terms = length es /\
  length alts = length es /\
  (es = [] ->
   andBuiltin [VVertex 5%nat] store1 = Ret (Some (EValue (VAtom ATop))) store1 /\
   orBuiltin markStatus [VVertex 5%nat] store1 =
     Ret (Some (EValue (VAtom (ABottom
            {| Code := IncompleteError;
               Err := {| ErrPos := pos store1;
                         Format := "empty list in call to or" |} |}))))
         store1) /\
  (es <> [] ->
   andBuiltin [VVertex 5%nat] store1 =
     Ret (Some (EValue (VConjunction terms))) store1 /\
   orBuiltin markStatus [VVertex 5%nat] store1 =
     Ret (Some (EValue (VVertex (length (vertices store1)))))
         (markStatus
            {| errs := errs store1;
               pos := pos store1;
               vertices :=
                 vertices store1 ++
                 [ {| Parent := None;
                      Label := {| Index := 0; Typ := StringLabel |};
                      status := Unprocessed;
                      BaseValue := BVnil;
                      Arcs := [];
                      Conjuncts :=
                        [ {| Env := None;
                             x := DisjunctionExpr alts false |} ] |} ] |}
            (length (vertices store1)) Finalized)).
Proof.
  apply (list_builtins_agree markStatus store1 5%nat
           (node (ListMarker false) [6; 7]%nat)).
  - reflexivity.
  - reflexivity.
  - unfold arcsAllocated. cbn [Arcs node].
    repeat constructor; eexists; reflexivity.
Defined.

(** X11.  [close] returns its error "struct argument must be concrete"
    exactly when the argument is not a node.  It does not look at what a
    node has been resolved to: a list node, a node resolved to a scalar
    and an unevaluated node are all accepted. *)
Theorem close_rejects_only_non_nodes
    (IsClosed : State -> Vertex -> bool) (s : State) (v : Value) :
  allocatedArg s v ->
  (closeBuiltin IsClosed [v] s =
   Ret (Some (EValue (hardError s "struct argument must be concrete"))) s
   <-> isNode v = false) /\
  (isNode v = true ->
   exists (q : loc) (s1 : State),
     closeBuiltin IsClosed [v] s = Ret (Some (EValue (VVertex q))) s1).
Proof.
  intros Hv.
  destruct v as [a | p | l]; cbn [isNode].
  - split; [split; reflexivity | discriminate].
  - destruct Hv as (x & Hp & _).
    assert (H : exists (q : loc) (s1 : State),
      closeBuiltin IsClosed [VVertex p] s = Ret (Some (EValue (VVertex q))) s1).
    { destruct (IsClosed s x) eqn:Hc.
      - exists p, s. apply (close_closed IsClosed s p x Hp Hc).
      - eexists _, _. apply (close_open IsClosed s p x Hp Hc). }
    split; [| intros _; exact H].
    destruct H as (q & s1 & ->).
    split; discriminate.
  - split; [split; reflexivity | discriminate].
Qed.

Lemma close_rejects_only_non_nodes_witness :
  (closeBuiltin markerClosed [VVertex 5%nat] store1 =
   Ret (Some (EValue (hardError store1 "struct argument must be concrete")))
       store1
   <-> isNode (VVertex 5%nat) = false) /\
  (isNode (VVertex 5%nat) = true ->
   exists (q : loc) (s1 : State),
     closeBuiltin markerClosed [VVertex 5%nat] store1 =
       Ret (Some (EValue (VVertex q))) s1).
Proof.
  apply (close_rejects_only_non_nodes markerClosed store1 (VVertex 5%nat)).
  exists (node (ListMarker false) [6; 7]%nat).
  split; [reflexivity |].
  unfold arcsAllocated. cbn [Arcs node].
  repeat constructor; eexists; reflexivity.
Defined.

Section Counting.

Lemma arcsWhere_split (P : Feature -> bool) (s : State) (arcs : list loc) :
  Forall (fun a => is_Some (vertices s !! a)) arcs ->
  (length (arcsWhere P (vertices s) arcs)
   + length (arcsWhere (fun f => negb (P f)) (vertices s) arcs))%nat
  = length arcs.
Proof.
  induction 1 as [| a rest [n Hn] _ IH]; [reflexivity |].
  unfold arcsWhere in *. cbn [List.filter]. rewrite Hn.
  destruct (P (Label n)); cbn [negb length]; lia.
Qed.

End Counting.

(** X12.  Exact division.  For integers [x] and [y] with [y] nonzero,
    [mod] returns zero exactly when [y] divides [x], and so does [rem];
    in that case [div] and [quo] return the same quotient, and it is the
    exact one. *)
Theorem exact_division (x y : Z) (s : State) :
  clean s -> y <> 0 ->
  exists q r d m : Z,
    returnsInt opQuo x y q s /\ returnsInt opRem x y r s /\
    returnsInt opDiv x y d s /\ returnsInt opMod x y m s /\
    (m = 0 <-> (y | x)) /\
    (r = 0 <-> (y | x)) /\
    ((y | x) -> d = q /\ d * y = x).
Proof.
  intros Hs Hy.
  destruct (Div_Mod_euclid x y Hy) as (d & m & Hd & Hm & Hdm & Hb).
  exists (Z.quot x y), (Z.rem x y), d, m.
  split; [apply builtinOf_int; try assumption; apply Quo_quot; exact Hy |].
  split; [apply builtinOf_int; try assumption; apply Rem_rem; exact Hy |].
  split; [apply builtinOf_int; assumption |].
  split; [apply builtinOf_int; assumption |].
  assert (Hm0 : m = 0 <-> (y | x)).
  { split.
    - intros ->. exists d. lia.
    - intros [k Hk].
      assert (Hmk : m = (k - d) * y) by lia.
      assert (Habs : Z.abs m = Z.abs (k - d) * Z.abs y)
        by (rewrite Hmk; apply Z.abs_mul).
      destruct (Z.eq_dec (k - d) 0) as [E | E]; [rewrite E in Hmk; lia |].
      assert (1 <= Z.abs (k - d)) by lia.
      assert (Z.abs m = m) by (apply Z.abs_eq; lia).
      nia. }
  split; [exact Hm0 |].
  split; [apply Z.rem_divide; exact Hy |].
  intros Hdiv.
  assert (m = 0) by (apply Hm0; exact Hdiv). subst m.
  pose proof (proj2 (Z.rem_divide x y Hy) Hdiv) as Hr.
  pose proof (Z.quot_rem' x y) as Hqr. rewrite Hr in Hqr.
  split; [| lia].
  apply (Z.mul_cancel_r _ _ y Hy). lia.
Qed.

Lemma exact_division_witness :
  exists q r d m : Z,
    returnsInt opQuo (-6) 3 q state0 /\ returnsInt opRem (-6) 3 r state0 /\
    returnsInt opDiv (-6) 3 d state0 /\ returnsInt opMod (-6) 3 m state0 /\
    (m = 0 <-> (3 | -6)) /\
    (r = 0 <-> (3 | -6)) /\
    ((3 | -6) -> d = q /\ d * 3 = -6).
Proof.
  apply (exact_division (-6) 3 state0); [reflexivity | lia].
Defined.

(** X13.  The arcs of a struct that [len] does not count are the hidden
    fields and the definitions, and no others: [len] plus the number of
    arcs whose label is not regular is the number of arcs. *)
Theorem len_struct_partition (s : State) (p : loc) (x : Vertex) (c : bool) :
  vertices s !! p = Some x ->
  BaseValue x = StructMarker c ->
  arcsAllocated s x ->
  exists n : Z,
    lenBuiltin [VVertex p] s = Ret (Some (EValue (int n))) s /\
    n + Z.of_nat (length (arcsWhere (fun f => negb (IsRegular f))
                            (vertices s) (Arcs x)))
    = Z.of_nat (length (Arcs x)) /\
    0 <= n <= Z.of_nat (length (Arcs x)).
Proof.
  intros Hp Hb Hx.
  exists (Z.of_nat (length (regularArcs s x))).
  split; [apply (len_struct_node s p x c Hp Hb Hx) |].
  pose proof (arcsWhere_split IsRegular s (Arcs x) Hx) as H.
  unfold regularArcs. lia.
Qed.

Lemma len_struct_partition_witness :
  exists n : Z,
    lenBuiltin [VVertex 0%nat] store1 = Ret (Some (EValue (int n))) store1 /\
    n + Z.of_nat (length (arcsWhere (fun f => negb (IsRegular f))
                            (vertices store1)
                            (Arcs (node (StructMarker false) [1; 2; 3; 4]%nat))))
    = Z.of_nat (length (Arcs (node (StructMarker false) [1; 2; 3; 4]%nat))) /\
    0 <= n <= Z.of_nat (length (Arcs (node (StructMarker false) [1; 2; 3; 4]%nat))).
Proof.
  apply (len_struct_partition store1 0%nat
           (node (StructMarker false) [1; 2; 3; 4]%nat) false).
  - reflexivity.
  - reflexivity.
  - unfold arcsAllocated. cbn [Arcs node].
    repeat constructor; eexists; reflexivity.
Defined.
